(** * cms_hospitals_ingest: a shallow embedding and its properties

    The development follows [cms_hospitals_ingest.py] function by function.

    - Python [str] values are lists of Unicode code points ([pystr]).
    - [dict.get] on a catalog item gives an optional field; the descriptor is
      a record of optional fields.
    - [metadata["datasets"]] is an insertion-ordered dictionary whose keys may
      be [None] (a descriptor without identifier); it is an association list
      with the update-in-place discipline of Python dictionaries.
    - Exceptions are values of [exn]; fallible functions return [result].
    - The mutable world of one run (the output directory, the metadata file,
      standard output) is a record threaded through the functions, next to
      the dictionary that [main] passes to every task.
    - What the outside world answers (the catalog, the downloads, the writes
      of the output files) is an argument of the functions.
    - The metadata file, when it exists, is the JSON object that a former run
      has written; paths are POSIX paths.
    - A field of a catalog item that is present has the type the program
      uses it at (a string; a list of objects for [distribution]); a JSON
      null or a value of another type in its place is outside the model, and
      so is a catalog body that is JSON but no object.
    - An output file is identified by its path string as the program builds
      it; paths are not normalised. *)

From Stdlib Require Import NArith String Ascii.
From stdpp Require Import gmap list.

Local Open Scope N_scope.

(** ** Python strings *)

Definition pystr := list N.

(** An ASCII literal of the source as a list of code points. *)
Definition py (s : string) : pystr :=
  map N_of_ascii (list_ascii_of_string s).

Definition is_ascii (c : N) : bool := c <? 128.

Definition ascii_lower (c : N) : N :=
  if (65 <=? c) && (c <=? 90) then c + 32 else c.

Definition is_alnum (c : N) : bool :=
  ((97 <=? c) && (c <=? 122)) || ((48 <=? c) && (c <=? 57)).

Definition underscore : N := 95.

Definition is_underscore (c : N) : bool := c =? underscore.

(** The two characters of the class [[’']]: U+2019 and U+0027. *)
Definition is_apostrophe (c : N) : bool := (c =? 8217) || (c =? 39).

(** [a > b] on Python strings: lexicographic on code points. *)
Fixpoint str_gt (a b : pystr) : bool :=
  match a, b with
  | [], _ => false
  | _ :: _, [] => true
  | x :: a', y :: b' => if x =? y then str_gt a' b' else y <? x
  end.

Fixpoint startswith (s prefix : pystr) {struct prefix} : bool :=
  match prefix, s with
  | [], _ => true
  | _ :: _, [] => false
  | p :: prefix', c :: s' => (c =? p) && startswith s' prefix'
  end.

(** [needle in hay]. *)
Fixpoint contains (needle hay : pystr) : bool :=
  startswith hay needle ||
  match hay with
  | [] => false
  | _ :: hay' => contains needle hay'
  end.

Fixpoint lstrip (p : N -> bool) (s : pystr) : pystr :=
  match s with
  | [] => []
  | c :: s' => if p c then lstrip p s' else s
  end.

(** [s.strip(chars)] for the character set [p]. *)
Definition strip (p : N -> bool) (s : pystr) : pystr :=
  rev (lstrip p (rev (lstrip p s))).

(** [re.sub(r"[^a-z0-9]+", "_", s)]: every match is a maximal run, since the
    quantifier is greedy and the scan resumes after the match. [in_run] tells
    that the underscore of the current run is already emitted. *)
Fixpoint sub_non_alnum (in_run : bool) (s : pystr) : pystr :=
  match s with
  | [] => []
  | c :: s' =>
      if is_alnum c then c :: sub_non_alnum false s'
      else if in_run then sub_non_alnum true s'
      else underscore :: sub_non_alnum true s'
  end.

(** ** Exceptions *)

Inductive exn :=
| IndexError
| TypeError
| HTTPError
| ParserError
| OSError.

Inductive result (A : Type) :=
| Ok (a : A)
| Raise (e : exn).

Arguments Ok {A} a.
Arguments Raise {A} e.

Definition bind {A B} (r : result A) (f : A -> result B) : result B :=
  match r with
  | Ok a => f a
  | Raise e => Raise e
  end.

Notation "x <- r ;; k" := (bind r (fun x => k))
  (at level 100, r at next level, right associativity).

(** ** Catalog items *)

Record distribution_item := { downloadURL : option pystr }.

(** One item of the catalog; [None] is a key that [dict.get] does not find. *)
Record dataset := {
  identifier : option pystr;
  title : option pystr;
  theme : option pystr;
  modified : option pystr;
  distribution : option (list distribution_item)
}.

(** An optional string inside an f-string: [None] prints as [None]. *)
Definition fmt (o : option pystr) : pystr :=
  match o with
  | Some s => s
  | None => py "None"
  end.

(** ** The metadata dictionary *)

Definition key := option pystr.
Definition value := option pystr.
Definition dict := list (key * value).

Fixpoint dict_get (k : key) (d : dict) : option value :=
  match d with
  | [] => None
  | (k', v) :: d' => if decide (k = k') then Some v else dict_get k d'
  end.

(** [k in d] *)
Definition dict_mem (k : key) (d : dict) : bool :=
  match dict_get k d with
  | Some _ => true
  | None => false
  end.

(** [d[k] = v]: an existing key keeps its place, a new key goes last. *)
Fixpoint dict_set (k : key) (v : value) (d : dict) : dict :=
  match d with
  | [] => [(k, v)]
  | (k', v') :: d' =>
      if decide (k = k') then (k, v) :: d' else (k', v') :: dict_set k v d'
  end.

(** The members of the ["datasets"] object of the metadata file, in file
    order. *)
Definition jobject := list (pystr * value).

(** [json.dump] writes the key [None] as ["null"]. *)
Definition json_key (k : key) : pystr :=
  match k with
  | Some s => s
  | None => py "null"
  end.

Definition json_dump (d : dict) : jobject :=
  map (fun kv => (json_key (fst kv), snd kv)) d.

(** [json.load] inserts the members one after the other. *)
Definition json_load (o : jobject) : dict :=
  fold_left (fun d kv => dict_set (Some (fst kv)) (snd kv) d) o [].

(** ** Files and the world of a run *)

Record table := { columns : list pystr; rows : list (list pystr) }.

Inductive file :=
| Csv (t : table)
| Truncated.

Record world := {
  files : gmap pystr file;
  metadata_file : option jobject;
  stdout : list pystr
}.

Definition print (line : pystr) (w : world) : world :=
  {| files := files w;
     metadata_file := metadata_file w;
     stdout := stdout w ++ [line] |}.

Definition write_file (path : pystr) (f : file) (w : world) : world :=
  {| files := <[path := f]> (files w);
     metadata_file := metadata_file w;
     stdout := stdout w |}.

(** What [DataFrame.to_csv] can do: write the file, or fail, possibly leaving
    a truncated file behind. *)
Inductive write_outcome :=
| WriteOk
| WriteFails (e : exn) (leaves_partial : bool).

(** The answers of the outside world to the calls of one task. *)
Record env := {
  read_csv : pystr -> result table;
  makedirs : option exn;
  to_csv : pystr -> table -> write_outcome
}.

(** ** Configuration *)

Definition OUTPUT_DIR : pystr := py "output".

(** [os.path.join(a, b)] on POSIX, for a non-empty [a] without a trailing
    separator: an absolute [b] replaces [a]. *)
Definition path_join (a b : pystr) : pystr :=
  if startswith b (py "/") then b else a ++ py "/" ++ b.

(** ** Metadata persistence helpers *)

Definition load_metadata (w : world) : dict :=
  match metadata_file w with
  | Some o => json_load o
  | None => []
  end.

Definition save_metadata (metadata : dict) (w : world) : world :=
  {| files := files w;
     metadata_file := Some (json_dump metadata);
     stdout := stdout w |}.

(** ** The catalog request *)

(** What [requests.get(METASTORE_URL)] returns: the status code, and what
    [response.json()] gives for a JSON object, namely its [items] member when
    it has one; a body that is not JSON raises. A body that is JSON but no
    object, and an [items] member that is no list of items, have no
    rendering here. *)
Record response := {
  status_code : N;
  json : result (option (list dataset))
}.

(** [response.raise_for_status()]: client and server errors raise. *)
Definition raise_for_status (r : response) : result unit :=
  if (400 <=? status_code r) && (status_code r <? 600) then Raise HTTPError
  else Ok tt.

(** [get] is the outcome of the request itself. *)
Definition fetch_datasets (get : result response) : result (list dataset) :=
  response <- get ;;
  checked <- raise_for_status response ;;
  body <- json response ;;
  Ok (default [] body).

(** The path of the output file of a dataset (line 144). *)
Definition output_path (d : dataset) : pystr :=
  path_join OUTPUT_DIR (fmt (identifier d) ++ py ".csv").

(** ** Sample data

    The strings of the samples are ASCII, on which [str.lower] does not
    consult the Unicode tables; [no_unicode] stands for them. *)

Definition no_unicode : pystr -> pystr := fun s => s.

Definition empty_world : world :=
  {| files := ∅; metadata_file := None; stdout := [] |}.

Definition descriptor (id theme modified : string)
    (dist : option (list distribution_item)) : dataset :=
  {| identifier := Some (py id);
     title := None;
     theme := Some (py theme);
     modified := Some (py modified);
     distribution := dist |}.

Definition at_url (url : string) : option (list distribution_item) :=
  Some [ {| downloadURL := Some (py url) |} ].

Definition sample_table : table :=
  {| columns := [py "Facility ID"; py "Patients' rating of the facility"];
     rows := [[py "010001"; py "4"]] |}.

(** The download and the write succeed. *)
Definition online : env :=
  {| read_csv := fun _ => Ok sample_table;
     makedirs := None;
     to_csv := fun _ _ => WriteOk |}.

(** The download fails. *)
Definition offline : env :=
  {| read_csv := fun _ => Raise HTTPError;
     makedirs := None;
     to_csv := fun _ _ => WriteOk |}.

Definition dataset_d1 : dataset :=
  descriptor "D1" "Hospital Compare" "2024-01-01" (at_url "https://data.cms.gov/d1.csv").
Definition dataset_d2 : dataset :=
  descriptor "D2" "HOSPITAL" "2024-02-01" (at_url "https://data.cms.gov/d2.csv").
Definition dataset_d3 : dataset :=
  descriptor "D3" "Hospitals" "2024-03-01" (at_url "https://data.cms.gov/d3.csv").

Definition three_hospitals : list dataset := [dataset_d1; dataset_d2; dataset_d3].

(** The second of three downloads fails. *)
Definition second_fails (i : nat) : env :=
  match i with
  | 1%nat => offline
  | _ => online
  end.

Definition all_online (i : nat) : env := online.

(** A hospital dataset without the [distribution] key. *)
Definition dataset_without_download : dataset :=
  descriptor "D4" "Hospitals" "2024-01-01" None.

(** A hospital dataset without the [modified] key. *)
Definition dataset_without_modified : dataset :=
  {| identifier := Some (py "D1");
     title := Some (py "Hospital General Information");
     theme := Some (py "Hospitals");
     modified := None;
     distribution := at_url "https://data.cms.gov/d1.csv" |}.

(** The state in which [D1] was processed at [2024-01-01]. *)
Definition recorded_state : dict := [(Some (py "D1"), Some (py "2024-01-01"))].

Definition recorded_world : world :=
  {| files := ∅;
     metadata_file := Some [(py "D1", Some (py "2024-01-01"))];
     stdout := [] |}.

(** [D1] as recorded, [D1] modified since, an unseen dataset, and a dataset
    of another theme. *)
Definition decision_catalog : list dataset :=
  [ dataset_d1;
    descriptor "D1" "Hospital Compare" "2024-02-01" (at_url "https://data.cms.gov/d1.csv");
    dataset_d2;
    descriptor "D5" "Nursing Home" "2024-02-01" (at_url "https://data.cms.gov/d5.csv") ].


(** A hospital dataset without the [identifier] key. *)
Definition dataset_without_identifier : dataset :=
  {| identifier := None;
     title := Some (py "Timely and Effective Care");
     theme := Some (py "Hospitals");
     modified := Some (py "2024-01-01");
     distribution := at_url "https://data.cms.gov/d6.csv" |}.

(** A catalog response without the [items] member. *)
Definition response_without_items : response :=
  {| status_code := 200; json := Ok None |}.

(** The catalog service is down. *)
Definition response_unavailable : response :=
  {| status_code := 503; json := Ok (Some three_hospitals) |}.

(** A dataset that is processed and one that is skipped. *)
Definition mixed_hospitals : list dataset := [dataset_d1; dataset_without_download].

(** [D1] with a time of day after its date. *)
Definition dataset_d1_with_time : dataset :=
  descriptor "D1" "Hospital Compare" "2024-01-01T00:00:00"
    (at_url "https://data.cms.gov/d1.csv").

(** A state with an entry recorded for a dataset without identifier. *)
Definition state_with_none : dict :=
  [(None, Some (py "2024-01-01")); (Some (py "D1"), Some (py "2024-01-01"))].

Section Program.

(** [str.lower] on a string with a code point outside ASCII follows the
    Unicode case tables (and is context dependent); it is left abstract.
    On ASCII strings it is the usual map. *)
Variable unicode_lower : pystr -> pystr.

Definition lower (s : pystr) : pystr :=
  if forallb is_ascii s then map ascii_lower s else unicode_lower s.

(** ** Utility functions *)

Definition to_snake_case (column_name : pystr) : pystr :=
  let col := lower column_name in
  let col := List.filter (fun c => negb (is_apostrophe c)) col in
  let col := sub_non_alnum false col in
  strip is_underscore col.

(** ** CMS API interaction *)

Definition is_hospital_dataset (d : dataset) : bool :=
  let theme := default [] (theme d) in
  contains (py "hospital") (lower theme).

Definition needs_update (d : dataset) (metadata : dict) : result bool :=
  let dataset_id := identifier d in
  let last_modified := modified d in
  if negb (dict_mem dataset_id metadata) then Ok true
  else
    match last_modified, dict_get dataset_id metadata with
    | Some a, Some (Some b) => Ok (str_gt a b)
    | _, _ => Raise TypeError
    end.

(** ** Dataset processing logic *)

Definition process_dataset (io : env) (d : dataset) (metadata : dict) (w : world)
  : dict * world * result (option pystr) :=
  let dataset_id := identifier d in
  let title := match title d with Some t => Some t | None => dataset_id end in
  let last_modified := modified d in
  match default [ {| downloadURL := None |} ] (distribution d) with
  | [] => (metadata, w, Raise IndexError)
  | first :: _ =>
      match downloadURL first with
      | None | Some [] => (metadata, w, Ok None)
      | Some download_url =>
          let w := print (py "Processing dataset: " ++ fmt title) w in
          match read_csv io download_url with
          | Raise e => (metadata, w, Raise e)
          | Ok df =>
              let df := {| columns := map to_snake_case (columns df);
                           rows := rows df |} in
              match makedirs io with
              | Some e => (metadata, w, Raise e)
              | None =>
                  let output_path :=
                    path_join OUTPUT_DIR (fmt dataset_id ++ py ".csv") in
                  match to_csv io output_path df with
                  | WriteFails e partial =>
                      (metadata,
                       if partial then write_file output_path Truncated w else w,
                       Raise e)
                  | WriteOk =>
                      (dict_set dataset_id last_modified metadata,
                       write_file output_path (Csv df) w,
                       Ok (Some output_path))
                  end
              end
          end
      end
  end.

(** ** Main orchestration *)

(** The list comprehension of [main]; [and] does not call [needs_update] on a
    dataset that is not a hospital dataset. *)
Fixpoint select (datasets : list dataset) (metadata : dict)
  : result (list dataset) :=
  match datasets with
  | [] => Ok []
  | d :: datasets' =>
      b <- (if is_hospital_dataset d then needs_update d metadata else Ok false) ;;
      rest <- select datasets' metadata ;;
      Ok (if b then d :: rest else rest)
  end.

(** The worker pool. Task [i] is the call for the [i]-th selected dataset and
    gets the answers [io i]. A task touches the shared dictionary in one
    assignment, its last step, so the pool is modelled as running the tasks one
    after the other in the order [order] in which they complete; the results
    come in that order, as [as_completed] yields them. *)
Fixpoint run_tasks (io : nat -> env) (tasks : list dataset) (order : list nat)
    (metadata : dict) (w : world)
  : dict * world * list (result (option pystr)) :=
  match order with
  | [] => (metadata, w, [])
  | i :: order' =>
      match tasks !! i with
      | None => run_tasks io tasks order' metadata w
      | Some d =>
          let '(metadata1, w1, r) := process_dataset (io i) d metadata w in
          let '(metadata2, w2, rs) := run_tasks io tasks order' metadata1 w1 in
          (metadata2, w2, r :: rs)
      end
  end.

(** The loop over [as_completed(futures)]: [future.result()] raises what the
    task raised. All tasks have run by the time the exception leaves the
    [with] block, since leaving it waits for the pool. *)
Fixpoint collect (results : list (result (option pystr))) (w : world)
  : world * result unit :=
  match results with
  | [] => (w, Ok tt)
  | Raise e :: _ => (w, Raise e)
  | Ok None :: results' | Ok (Some []) :: results' => collect results' w
  | Ok (Some p) :: results' =>
      collect results' (print (py "Saved cleaned file to " ++ p) w)
  end.

Definition main (catalog : result (list dataset)) (io : nat -> env)
    (order : list nat) (w : world) : world * result unit :=
  let metadata := load_metadata w in
  match catalog with
  | Raise e => (w, Raise e)
  | Ok datasets =>
      match select datasets metadata with
      | Raise e => (w, Raise e)
      | Ok [] => (print (py "No new or updated hospital datasets found.") w, Ok tt)
      | Ok hospital_datasets =>
          let '(metadata, w, results) :=
            run_tasks io hospital_datasets order metadata w in
          match collect results w with
          | (w, Raise e) => (w, Raise e)
          | (w, Ok _) =>
              (print (py "Ingestion complete.") (save_metadata metadata w), Ok tt)
          end
      end
  end.

(** ** The normalizer as the specification words it

    Lowercase; delete the apostrophes; replace every maximal run of characters
    outside [a-z0-9] by one underscore; trim the underscores at both ends. *)

(** The maximal runs of a string: consecutive characters stay together as long
    as they are on the same side of [a-z0-9]. *)
Fixpoint maximal_runs (s : pystr) : list pystr :=
  match s with
  | [] => []
  | c :: s' =>
      match maximal_runs s' with
      | (c' :: run) :: runs =>
          if bool_decide (is_alnum c = is_alnum c')
          then (c :: c' :: run) :: runs
          else [c] :: (c' :: run) :: runs
      | _ => [[c]]
      end
  end.

Definition replace_run (run : pystr) : pystr :=
  match run with
  | [] => []
  | c :: _ => if is_alnum c then run else [underscore]
  end.

Fixpoint trim_trailing (s : pystr) : pystr :=
  match s with
  | [] => []
  | c :: s' =>
      match trim_trailing s' with
      | [] => if is_underscore c then [] else [c]
      | t => c :: t
      end
  end.

Definition delete_apostrophes (s : pystr) : pystr :=
  flat_map (fun c => if is_apostrophe c then [] else [c]) s.

Definition normalize_spec (raw : pystr) : pystr :=
  let lowered := lower raw in
  let no_apostrophes := delete_apostrophes lowered in
  let replaced := concat (map replace_run (maximal_runs no_apostrophes)) in
  trim_trailing (lstrip is_underscore replaced).

(** The invariant of a normalized column name: lowercase ASCII letters, digits
    and single underscores. [after_underscore] tells that the previous
    character is an underscore. *)
Fixpoint single_underscores (after_underscore : bool) (s : pystr) : bool :=
  match s with
  | [] => true
  | c :: s' =>
      if is_alnum c then single_underscores false s'
      else is_underscore c && negb after_underscore && single_underscores true s'
  end.

(** ** The selection as the specification words it *)

(** The substring [hospital] appears in the lowercased theme. *)
Definition theme_matches (d : dataset) : Prop :=
  exists before after,
    lower (default [] (theme d)) = before ++ py "hospital" ++ after.

(** [a] is strictly greater than [b] in the lexicographic order: at the first
    position where they differ [a] has the greater code point, or [b] is a
    proper prefix of [a]. *)
Definition lex_gt (a b : pystr) : Prop :=
  (exists common x y a' b',
      a = common ++ x :: a' /\ b = common ++ y :: b' /\ y < x) \/
  (exists x a', a = b ++ x :: a').

(** The identifier is absent from the state, or the modified timestamp is
    strictly greater than the stored one. *)
Definition update_due (metadata : dict) (d : dataset) : Prop :=
  dict_get (identifier d) metadata = None \/
  exists a b,
    modified d = Some a /\
    dict_get (identifier d) metadata = Some (Some b) /\
    lex_gt a b.

(** The decision procedure for both predicates together. *)
Definition qualifies (metadata : dict) (d : dataset) : bool :=
  is_hospital_dataset d &&
  match dict_get (identifier d) metadata with
  | None => true
  | Some stored =>
      match modified d, stored with
      | Some a, Some b => str_gt a b
      | _, _ => false
      end
  end.

(** The comparison of [needs_update] is between two strings: a dataset whose
    identifier is in the state has a modified timestamp, and the stored value
    is a timestamp. *)
Definition timestamps_present (metadata : dict) (d : dataset) : Prop :=
  forall stored,
    dict_get (identifier d) metadata = Some stored ->
    is_Some (modified d) /\ is_Some stored.

(** ** Tasks seen from the pool *)

(** What a task returns or raises; it depends on the descriptor and on the
    answers of the outside world, not on the state it is given. *)
Definition task_result (io : env) (d : dataset) : result (option pystr) :=
  snd (process_dataset io d [] empty_world).

Definition is_raise {A} (r : result A) : bool :=
  match r with
  | Raise _ => true
  | Ok _ => false
  end.

(** The dictionary has no key twice, and its keys are strings. *)
Definition string_keys (metadata : dict) : Prop :=
  NoDup (map fst metadata) /\ Forall (fun kv => is_Some (fst kv)) metadata.

(** The comparison of [needs_update] would be reached with a side that is
    [None]. *)
Definition incomparable (metadata : dict) (d : dataset) : bool :=
  is_hospital_dataset d &&
  match dict_get (identifier d) metadata with
  | None => false
  | Some stored =>
      match modified d, stored with
      | Some _, Some _ => false
      | _, _ => true
      end
  end.

(** * Properties *)

(** ** Strings *)

Lemma lstrip_app_single p s c :
  lstrip p (s ++ [c]) =
  if forallb p s then (if p c then [] else [c]) else lstrip p s ++ [c].
Proof.
  induction s as [|d s IH]; simpl; [reflexivity|].
  destruct (p d); simpl; [exact IH | reflexivity].
Qed.

Lemma trim_trailing_nil_iff s :
  trim_trailing s = [] <-> forallb is_underscore s = true.
Proof.
  induction s as [|c s IH]; simpl; [tauto|].
  destruct (trim_trailing s) eqn:E.
  - destruct (is_underscore c); simpl.
    + split; [intros _; apply IH; reflexivity | reflexivity].
    + split; discriminate.
  - split; [discriminate|]. intros H. apply andb_prop in H as [_ H].
    apply IH in H. discriminate.
Qed.

Lemma forallb_rev_eq (p : N -> bool) s : forallb p (rev s) = forallb p s.
Proof.
  induction s as [|c s IH]; simpl; [reflexivity|].
  rewrite forallb_app, IH. simpl. rewrite andb_true_r. apply andb_comm.
Qed.

(** Stripping at the right end, as [strip] does it, is [trim_trailing]. *)
Lemma rev_lstrip_rev s :
  rev (lstrip is_underscore (rev s)) = trim_trailing s.
Proof.
  induction s as [|c s IH]; simpl; [reflexivity|].
  rewrite lstrip_app_single, forallb_rev_eq.
  destruct (forallb is_underscore s) eqn:E.
  - apply trim_trailing_nil_iff in E. rewrite E.
    destruct (is_underscore c); reflexivity.
  - rewrite rev_app_distr, IH. simpl.
    destruct (trim_trailing s) eqn:E'; [|reflexivity].
    assert (forallb is_underscore s = true) by (apply trim_trailing_nil_iff; exact E').
    congruence.
Qed.

Lemma strip_trim s :
  strip is_underscore s = trim_trailing (lstrip is_underscore s).
Proof. unfold strip. apply rev_lstrip_rev. Qed.

(** ** The substitution of the runs *)

Lemma maximal_runs_head s run runs :
  maximal_runs s = run :: runs -> exists c run', run = c :: run'.
Proof.
  destruct s as [|c s]; simpl; [discriminate|].
  destruct (maximal_runs s) as [|[|c' r] rs].
  - intros [= <- _]. eauto.
  - intros [= <- _]. eauto.
  - case_bool_decide; intros [= <- _]; eauto.
Qed.

Lemma maximal_runs_nil s : maximal_runs s = [] -> s = [].
Proof.
  destruct s as [|c s]; simpl; [reflexivity|].
  destruct (maximal_runs s) as [|[|c' r] rs]; try discriminate.
  case_bool_decide; discriminate.
Qed.

(** The scan with its flag against the runs: when the scan is inside a run,
    the underscore of the first run is already there. *)
Lemma sub_non_alnum_runs s in_run :
  sub_non_alnum in_run s =
  match maximal_runs s with
  | [] => []
  | run :: runs =>
      (if in_run && negb (is_alnum (hd 0 run)) then [] else replace_run run)
      ++ concat (map replace_run runs)
  end.
Proof.
  revert in_run. induction s as [|c s IH]; intros in_run; simpl; [reflexivity|].
  destruct (maximal_runs s) as [|run runs] eqn:E.
  - apply maximal_runs_nil in E. subst s. simpl.
    destruct (is_alnum c), in_run; reflexivity.
  - destruct (maximal_runs_head _ _ _ E) as (c' & run' & ->).
    case_bool_decide as Hc.
    + destruct (is_alnum c) eqn:Ec.
      * rewrite IH. simpl. rewrite Ec, <- Hc. simpl.
        destruct in_run; reflexivity.
      * rewrite !IH. simpl. rewrite Ec, <- Hc. simpl.
        destruct in_run; reflexivity.
    + destruct (is_alnum c) eqn:Ec.
      * rewrite IH. simpl. rewrite Ec. simpl.
        destruct in_run; reflexivity.
      * rewrite !IH. simpl. rewrite Ec.
        destruct (is_alnum c') eqn:Ec'; [|congruence]. simpl.
        destruct in_run; reflexivity.
Qed.

Lemma filter_delete_apostrophes s :
  List.filter (fun c => negb (is_apostrophe c)) s = delete_apostrophes s.
Proof.
  induction s as [|c s IH]; simpl; [reflexivity|].
  destruct (is_apostrophe c); simpl; congruence.
Qed.

(** ** The invariant of the normalized names *)

Lemma sub_non_alnum_single in_run s :
  single_underscores in_run (sub_non_alnum in_run s) = true.
Proof.
  revert in_run. induction s as [|c s IH]; intros in_run; simpl; [reflexivity|].
  destruct (is_alnum c) eqn:Ec; simpl.
  - rewrite Ec. apply IH.
  - destruct in_run; [apply IH|]. simpl. rewrite IH. reflexivity.
Qed.

Lemma single_underscores_lstrip b s :
  single_underscores b s = true ->
  single_underscores false (lstrip is_underscore s) = true.
Proof.
  revert b. induction s as [|c s IH]; intros b; simpl; [reflexivity|].
  destruct (is_underscore c) eqn:Eu.
  - destruct (is_alnum c); [apply IH|].
    intros H. apply andb_prop in H as [_ H]. eapply IH, H.
  - intros H. simpl. rewrite Eu in *.
    destruct (is_alnum c); [exact H | discriminate].
Qed.

Lemma single_underscores_trim b s :
  single_underscores b s = true ->
  single_underscores b (trim_trailing s) = true.
Proof.
  revert b. induction s as [|c s IH]; intros b; simpl; [reflexivity|].
  intros H. destruct (trim_trailing s) as [|d t] eqn:E.
  - destruct (is_underscore c) eqn:Eu; [reflexivity|]. simpl.
    destruct (is_alnum c); [reflexivity | discriminate].
  - change (single_underscores b (c :: d :: t)) with
      (if is_alnum c then single_underscores false (d :: t)
       else is_underscore c && negb b && single_underscores true (d :: t)).
    destruct (is_alnum c); [apply IH, H|].
    apply andb_prop in H as [H1 H2]. rewrite H1. apply IH, H2.
Qed.

(** A string of that form is left alone by the substitution. *)
Lemma sub_non_alnum_fixed b s :
  single_underscores b s = true -> sub_non_alnum b s = s.
Proof.
  revert b. induction s as [|c s IH]; intros b; simpl; [reflexivity|].
  destruct (is_alnum c).
  - intros H. f_equal. apply IH, H.
  - intros H. apply andb_prop in H as [H H2]. apply andb_prop in H as [Hu Hb].
    destruct b; [discriminate|]. apply N.eqb_eq in Hu. subst c.
    f_equal. apply IH, H2.
Qed.

Lemma single_underscores_chars b s :
  single_underscores b s = true ->
  Forall (fun c => is_alnum c = true \/ c = underscore) s.
Proof.
  revert b. induction s as [|c s IH]; intros b; simpl; [constructor|].
  destruct (is_alnum c) eqn:Ec.
  - intros H. constructor; [tauto | eapply IH, H].
  - intros H. apply andb_prop in H as [H H2]. apply andb_prop in H as [Hu _].
    apply N.eqb_eq in Hu. constructor; [tauto | eapply IH, H2].
Qed.

Lemma is_alnum_range c :
  is_alnum c = true <-> (97 <= c <= 122) \/ (48 <= c <= 57).
Proof.
  unfold is_alnum. rewrite orb_true_iff, !andb_true_iff, !N.leb_le. tauto.
Qed.

Lemma normalized_char_ascii c :
  is_alnum c = true \/ c = underscore ->
  is_ascii c = true /\ ascii_lower c = c /\ is_apostrophe c = false.
Proof.
  rewrite is_alnum_range. unfold underscore, is_ascii, ascii_lower, is_apostrophe.
  intros H. repeat split.
  - apply N.ltb_lt. lia.
  - destruct (_ && _) eqn:E; [|reflexivity].
    apply andb_prop in E as [E1 E2]. apply N.leb_le in E1, E2. lia.
  - apply orb_false_iff. split; apply N.eqb_neq; lia.
Qed.

Lemma lower_fixed s :
  Forall (fun c => is_alnum c = true \/ c = underscore) s -> lower s = s.
Proof.
  intros H. unfold lower.
  assert (forallb is_ascii s = true) as ->.
  { induction H as [|c s Hc _ IH]; simpl; [reflexivity|].
    rewrite IH. apply normalized_char_ascii in Hc as [-> _]. reflexivity. }
  induction H as [|c s Hc _ IH]; simpl; [reflexivity|].
  apply normalized_char_ascii in Hc as (_ & -> & _). f_equal. exact IH.
Qed.

Lemma delete_apostrophes_fixed s :
  Forall (fun c => is_alnum c = true \/ c = underscore) s ->
  List.filter (fun c => negb (is_apostrophe c)) s = s.
Proof.
  induction 1 as [|c s Hc _ IH]; simpl; [reflexivity|].
  apply normalized_char_ascii in Hc as (_ & _ & ->).
  simpl. f_equal. exact IH.
Qed.

Lemma lstrip_idempotent p s : lstrip p (lstrip p s) = lstrip p s.
Proof.
  induction s as [|c s IH]; simpl; [reflexivity|].
  destruct (p c) eqn:E; [exact IH|]. simpl. rewrite E. reflexivity.
Qed.

Lemma trim_trailing_idempotent s :
  trim_trailing (trim_trailing s) = trim_trailing s.
Proof.
  induction s as [|c s IH]; simpl; [reflexivity|].
  destruct (trim_trailing s) as [|d t] eqn:E.
  - destruct (is_underscore c) eqn:Eu; simpl; [reflexivity|]. rewrite Eu. reflexivity.
  - change (trim_trailing (c :: d :: t)) with
      (match trim_trailing (d :: t) with
       | [] => if is_underscore c then [] else [c]
       | t' => c :: t'
       end).
    rewrite IH. reflexivity.
Qed.

(** Trimming the right end does not uncover an underscore at the left end. *)
Lemma lstrip_trim_trailing s :
  lstrip is_underscore s = s ->
  lstrip is_underscore (trim_trailing s) = trim_trailing s.
Proof.
  destruct s as [|c s]; simpl; [reflexivity|].
  destruct (is_underscore c) eqn:Eu.
  - intros H. exfalso.
    assert (length (lstrip is_underscore s) <= length s)%nat.
    { clear. induction s as [|d s IH]; simpl; [lia|].
      destruct (is_underscore d); simpl; lia. }
    rewrite H in H0. simpl in H0. lia.
  - intros _. destruct (trim_trailing s); simpl; rewrite Eu; reflexivity.
Qed.

Lemma strip_idempotent s :
  strip is_underscore (strip is_underscore s) = strip is_underscore s.
Proof.
  rewrite !strip_trim.
  rewrite (lstrip_trim_trailing (lstrip is_underscore s))
    by apply lstrip_idempotent.
  apply trim_trailing_idempotent.
Qed.

Lemma to_snake_case_form raw :
  single_underscores false (to_snake_case raw) = true.
Proof.
  unfold to_snake_case. rewrite strip_trim.
  apply single_underscores_trim.
  apply single_underscores_lstrip with (b := false).
  apply sub_non_alnum_single.
Qed.

(** ** The column normalizer *)

(** C7: [to_snake_case] is the algorithm of the specification on every input
    (lowercase, delete the curly and the straight apostrophe, one underscore
    for every maximal run outside [a-z0-9], trim the underscores at both
    ends), and it maps the two strings of the specification as stated. *)
Theorem to_snake_case_implements_normalize :
  (forall raw, to_snake_case raw = normalize_spec raw) /\
  to_snake_case (py "Patients' rating of the facility")
    = py "patients_rating_of_the_facility" /\
  to_snake_case (py "  A--B__C  ") = py "a_b_c".
Proof.
  split; [|split; reflexivity].
  intros raw. unfold to_snake_case, normalize_spec.
  rewrite strip_trim, filter_delete_apostrophes, sub_non_alnum_runs.
  destruct (maximal_runs _) as [|run runs]; reflexivity.
Qed.

(** C8: normalizing a normalized name changes nothing, for every input. *)
Theorem to_snake_case_idempotent x :
  to_snake_case (to_snake_case x) = to_snake_case x.
Proof.
  pose proof (to_snake_case_form x) as Hform.
  pose proof (single_underscores_chars _ _ Hform) as Hchars.
  unfold to_snake_case at 1.
  rewrite (lower_fixed _ Hchars), (delete_apostrophes_fixed _ Hchars).
  rewrite (sub_non_alnum_fixed _ _ Hform).
  unfold to_snake_case. apply strip_idempotent.
Qed.

(** ** Substrings and the order of strings *)

Lemma startswith_spec s prefix :
  startswith s prefix = true <-> exists rest, s = prefix ++ rest.
Proof.
  revert s. induction prefix as [|p prefix IH]; intros s; simpl.
  - split; [intros _; exists s; reflexivity | reflexivity].
  - destruct s as [|c s].
    + split; [discriminate | intros [rest H]; discriminate].
    + rewrite andb_true_iff, N.eqb_eq, IH. split.
      * intros [-> [rest ->]]. eauto.
      * intros [rest [= -> ->]]. eauto.
Qed.

Lemma contains_spec needle hay :
  contains needle hay = true <->
  exists before after, hay = before ++ needle ++ after.
Proof.
  induction hay as [|c hay IH]; simpl.
  - rewrite orb_false_r, startswith_spec. split.
    + intros [rest H]. exists [], rest. exact H.
    + intros (before & after & H). destruct before; [eauto | discriminate].
  - rewrite orb_true_iff, startswith_spec, IH. split.
    + intros [[rest H] | (before & after & ->)].
      * exists [], rest. exact H.
      * exists (c :: before), after. reflexivity.
    + intros (before & after & H). destruct before as [|c' before].
      * left. eauto.
      * right. injection H as _ ->. eauto.
Qed.

Lemma str_gt_irrefl a : str_gt a a = false.
Proof. induction a as [|x a IH]; simpl; [reflexivity|]. rewrite N.eqb_refl. exact IH. Qed.

Lemma str_gt_spec a b : str_gt a b = true <-> lex_gt a b.
Proof.
  split.
  - revert b. induction a as [|x a IH]; intros b; simpl; [discriminate|].
    destruct b as [|y b].
    + intros _. right. exists x, a. reflexivity.
    + destruct (N.eqb_spec x y) as [->|Hne].
      * intros H. apply IH in H as [(common & x' & y' & a' & b' & -> & -> & H) | (x' & a' & ->)].
        -- left. exists (y :: common), x', y', a', b'. auto.
        -- right. exists x', a'. reflexivity.
      * intros H. apply N.ltb_lt in H. left. exists [], x, y, a, b. auto.
  - intros [(common & x & y & a' & b' & -> & -> & H) | (x & a' & ->)].
    + induction common as [|c common IH]; simpl.
      * destruct (N.eqb_spec x y); [lia | apply N.ltb_lt, H].
      * rewrite N.eqb_refl. exact IH.
    + induction b as [|y b IH]; simpl; [reflexivity|].
      rewrite N.eqb_refl. exact IH.
Qed.

(** ** The dictionary *)

Lemma dict_get_set_eq k v d : dict_get k (dict_set k v d) = Some v.
Proof.
  induction d as [|[k' v'] d IH]; simpl.
  - rewrite decide_True by reflexivity. reflexivity.
  - destruct (decide (k = k')) as [->|Hne]; simpl.
    + rewrite decide_True by reflexivity. reflexivity.
    + rewrite decide_False by exact Hne. exact IH.
Qed.

Lemma dict_get_set_ne k k' v d :
  k <> k' -> dict_get k' (dict_set k v d) = dict_get k' d.
Proof.
  intros Hne. induction d as [|[k0 v0] d IH]; simpl.
  - rewrite decide_False by congruence. reflexivity.
  - destruct (decide (k = k0)) as [->|Hne0]; simpl.
    + rewrite !decide_False by congruence. reflexivity.
    + destruct (decide (k' = k0)); [reflexivity | exact IH].
Qed.

(** ** The selection *)

Lemma is_hospital_dataset_spec d :
  is_hospital_dataset d = true <-> theme_matches d.
Proof. apply contains_spec. Qed.

Lemma qualifies_spec metadata d :
  qualifies metadata d = true <-> theme_matches d /\ update_due metadata d.
Proof.
  unfold qualifies, update_due.
  rewrite andb_true_iff, is_hospital_dataset_spec.
  apply and_iff_compat_l.
  destruct (dict_get (identifier d) metadata) as [stored|]; [|split; auto].
  split.
  - destruct (modified d) as [a|], stored as [b|]; try discriminate.
    intros H. apply str_gt_spec in H. right. exists a, b. auto.
  - intros [[=] | (a & b & -> & [= ->] & H)]. apply str_gt_spec, H.
Qed.

(** What one step of the comprehension computes. *)
Lemma needs_update_qualifies metadata d :
  is_hospital_dataset d = true ->
  timestamps_present metadata d ->
  needs_update d metadata = Ok (qualifies metadata d).
Proof.
  intros Hh Hts. unfold needs_update, qualifies, dict_mem. rewrite Hh. simpl.
  destruct (dict_get (identifier d) metadata) as [stored|] eqn:E; [|reflexivity].
  destruct (Hts stored E) as [[a ->] [b ->]]. reflexivity.
Qed.

(** C4 as amended: on a catalog whose hospital datasets carry the timestamps
    that the update predicate compares, the selection returns exactly the
    descriptors
    whose lowercased theme contains [hospital] and whose identifier is absent
    from the state or whose modified timestamp is lexicographically greater
    than the stored one, in the order of the catalog; a descriptor whose
    modified timestamp equals the stored one is not selected. *)
Theorem select_exact datasets metadata :
  (forall d, In d datasets ->
     is_hospital_dataset d = true -> timestamps_present metadata d) ->
  select datasets metadata = Ok (List.filter (qualifies metadata) datasets) /\
  (forall d,
     qualifies metadata d = true <-> theme_matches d /\ update_due metadata d) /\
  (forall d ts,
     modified d = Some ts ->
     dict_get (identifier d) metadata = Some (Some ts) ->
     ~ In d (List.filter (qualifies metadata) datasets)).
Proof.
  intros Hts. split; [|split].
  - induction datasets as [|d datasets IH]; simpl; [reflexivity|].
    rewrite IH by (intros; apply Hts; simpl; auto). simpl.
    destruct (is_hospital_dataset d) eqn:Eh.
    + rewrite needs_update_qualifies by (auto; apply Hts; simpl; auto).
      reflexivity.
    + unfold qualifies. rewrite Eh. reflexivity.
  - intros d. apply qualifies_spec.
  - intros d ts Hm Hg Hin. apply filter_In in Hin as [_ Hq].
    unfold qualifies in Hq. rewrite Hg, Hm, str_gt_irrefl, andb_false_r in Hq.
    discriminate.
Qed.

(** C10: [needs_update] has no answer for a descriptor without modified
    timestamp whose identifier is in the state: the comparison raises
    [TypeError]; a run whose catalog starts with such a hospital dataset ends
    with that exception. *)
Theorem needs_update_raises_without_modified :
  (forall d metadata,
     dict_mem (identifier d) metadata = true ->
     modified d = None ->
     needs_update d metadata = Raise TypeError) /\
  (forall d rest io order w,
     is_hospital_dataset d = true ->
     dict_mem (identifier d) (load_metadata w) = true ->
     modified d = None ->
     main (Ok (d :: rest)) io order w = (w, Raise TypeError)).
Proof.
  assert (forall d metadata,
     dict_mem (identifier d) metadata = true ->
     modified d = None ->
     needs_update d metadata = Raise TypeError) as Hraise.
  { intros d metadata Hmem Hmod. unfold needs_update.
    rewrite Hmem, Hmod. reflexivity. }
  split; [exact Hraise|].
  intros d rest io order w Hh Hmem Hmod. unfold main. simpl.
  rewrite Hh, (Hraise _ _ Hmem Hmod). reflexivity.
Qed.

(** ** The empty selection *)

(** C9: when nothing is selected the run prints its message and returns; no
    task runs, so the output files, the metadata file and the rest of the
    output are as before. *)
Theorem main_nothing_to_do datasets io order w :
  select datasets (load_metadata w) = Ok [] ->
  main (Ok datasets) io order w =
    (print (py "No new or updated hospital datasets found.") w, Ok tt) /\
  metadata_file (fst (main (Ok datasets) io order w)) = metadata_file w /\
  files (fst (main (Ok datasets) io order w)) = files w.
Proof.
  intros H. unfold main. rewrite H. auto.
Qed.

(** ** One dataset *)

(** The skip of [process_dataset]: without the [distribution] key, or with a
    first distribution without download locator, nothing happens. *)
Lemma process_dataset_skip io d metadata w :
  distribution d = None \/
  (exists first others,
     distribution d = Some (first :: others) /\
     (downloadURL first = None \/ downloadURL first = Some [])) ->
  process_dataset io d metadata w = (metadata, w, Ok None).
Proof.
  unfold process_dataset.
  intros [-> | (first & others & -> & [H | H])]; simpl; rewrite ?H; reflexivity.
Qed.

(** C2: on a descriptor whose distribution list is there and is empty,
    [process_dataset] does not return [None]: indexing the list raises
    [IndexError]. *)
Theorem process_dataset_empty_distribution io id ti th mo metadata w :
  process_dataset io
    {| identifier := id; title := ti; theme := th; modified := mo;
       distribution := Some [] |} metadata w
  = (metadata, w, Raise IndexError).
Proof. reflexivity. Qed.

(** C5: the entry of the state is assigned after the output file is written:
    when the call raises, or returns [None], the dictionary is the one given;
    when it returns a path the file at that path holds the table with the
    renamed columns, and only the entry of the identifier is assigned. *)
Theorem process_dataset_state_after_write io d metadata w :
  match process_dataset io d metadata w with
  | (metadata', w', Raise _) => metadata' = metadata
  | (metadata', w', Ok None) => metadata' = metadata /\ w' = w
  | (metadata', w', Ok (Some path)) =>
      (exists url df,
         read_csv io url = Ok df /\
         to_csv io path {| columns := map to_snake_case (columns df);
                           rows := rows df |} = WriteOk /\
         files w' !! path =
           Some (Csv {| columns := map to_snake_case (columns df);
                        rows := rows df |})) /\
      metadata' = dict_set (identifier d) (modified d) metadata
  end.
Proof.
  unfold process_dataset. cbv zeta.
  destruct (default _ (distribution d)) as [|first others]; [reflexivity|].
  destruct (downloadURL first) as [[|c url]|]; [auto | | auto].
  destruct (read_csv io (c :: url)) as [df|e] eqn:Er; [|reflexivity].
  destruct (makedirs io); [reflexivity|].
  destruct (to_csv io _ _) as [|e partial] eqn:Ew; [|reflexivity].
  split; [|reflexivity].
  exists (c :: url), df. split; [exact Er|]. split; [exact Ew|].
  simpl. apply lookup_insert_eq.
Qed.

(** What [process_dataset] does to its three outputs, by result. *)
Lemma process_dataset_effects io d metadata w :
  let '(metadata', w', r) := process_dataset io d metadata w in
  r = task_result io d /\
  metadata_file w' = metadata_file w /\
  (forall path, is_Some (files w !! path) -> is_Some (files w' !! path)) /\
  match r with
  | Ok (Some path) =>
      metadata' = dict_set (identifier d) (modified d) metadata /\
      is_Some (files w' !! path)
  | _ => metadata' = metadata
  end.
Proof.
  unfold task_result, process_dataset. cbv zeta.
  destruct (default _ (distribution d)) as [|first others]; [auto|].
  destruct (downloadURL first) as [[|c url]|]; [auto | | auto].
  destruct (read_csv io (c :: url)) as [df|e]; [|auto].
  destruct (makedirs io); [auto|].
  destruct (to_csv io _ _) as [|e partial].
  - simpl. repeat split; auto.
    + intros path H. destruct (decide (path_join OUTPUT_DIR
        (fmt (identifier d) ++ py ".csv") = path)) as [<-|Hne].
      * rewrite lookup_insert_eq. eauto.
      * rewrite lookup_insert_ne by exact Hne. exact H.
    + rewrite lookup_insert_eq. eauto.
  - destruct partial; simpl; repeat split; auto.
    intros path H. destruct (decide (path_join OUTPUT_DIR
        (fmt (identifier d) ++ py ".csv") = path)) as [<-|Hne].
    + rewrite lookup_insert_eq. eauto.
    + rewrite lookup_insert_ne by exact Hne. exact H.
Qed.

(** ** The pool *)

Lemma run_tasks_cons io tasks i order metadata w d :
  tasks !! i = Some d ->
  run_tasks io tasks (i :: order) metadata w =
  let '(metadata1, w1, r) := process_dataset (io i) d metadata w in
  let '(metadata2, w2, rs) := run_tasks io tasks order metadata1 w1 in
  (metadata2, w2, r :: rs).
Proof. intros H. simpl. rewrite H. reflexivity. Qed.

(** The results are those of the tasks of [order]; the metadata file is not
    touched; files are added, never removed. *)
Lemma run_tasks_effects io tasks order metadata w :
  let '(metadata', w', results) := run_tasks io tasks order metadata w in
  (forall r, In r results <->
     exists i d, In i order /\ tasks !! i = Some d /\ r = task_result (io i) d) /\
  metadata_file w' = metadata_file w /\
  (forall path, is_Some (files w !! path) -> is_Some (files w' !! path)) /\
  (forall i d path,
     In i order -> tasks !! i = Some d ->
     task_result (io i) d = Ok (Some path) -> is_Some (files w' !! path)).
Proof.
  revert metadata w. induction order as [|i order IH]; intros metadata w.
  - simpl. split; [|split; [|split]].
    + intros r. split; [intros [] | intros (i & d & [] & _)].
    + reflexivity.
    + auto.
    + intros i d path [].
  - destruct (tasks !! i) as [d|] eqn:Ei.
    + rewrite (run_tasks_cons _ _ _ _ _ _ _ Ei).
      pose proof (process_dataset_effects (io i) d metadata w) as Hp.
      destruct (process_dataset (io i) d metadata w) as [[metadata1 w1] r].
      destruct Hp as (Hr & Hfile & Hmono & Hmatch).
      specialize (IH metadata1 w1).
      destruct (run_tasks io tasks order metadata1 w1) as [[metadata2 w2] rs].
      destruct IH as (IHr & IHfile & IHmono & IHdone).
      repeat split.
      * intros [<- | Hin].
        -- exists i, d. simpl. auto.
        -- apply IHr in Hin as (j & d' & Hj & Hd' & ->).
           exists j, d'. simpl. auto.
      * intros (j & d' & [<- | Hj] & Hd' & ->).
        -- left. congruence.
        -- right. apply IHr. eauto.
      * congruence.
      * auto.
      * intros j d' path [<- | Hj] Hd' Hres.
        -- apply IHmono. assert (d' = d) as -> by congruence.
           rewrite Hr, Hres in Hmatch. apply Hmatch.
        -- eapply IHdone; eauto.
    + simpl. rewrite Ei. specialize (IH metadata w).
      destruct (run_tasks io tasks order metadata w) as [[metadata2 w2] rs].
      destruct IH as (IHr & IHfile & IHmono & IHdone).
      repeat split; auto.
      * intros Hin. apply IHr in Hin as (j & d' & Hj & Hd' & ->).
        exists j, d'. simpl. auto.
      * intros (j & d' & [<- | Hj] & Hd' & ->); [congruence|].
        apply IHr. eauto.
      * intros j d' path [<- | Hj] Hd' Hres; [congruence|].
        eapply IHdone; eauto.
Qed.

(** ** The loop over the results *)

Lemma collect_frame results w :
  files (fst (collect results w)) = files w /\
  metadata_file (fst (collect results w)) = metadata_file w.
Proof.
  revert w.
  induction results as [|[[[|c p]|]|e] results IH]; intros w; cbn [collect]; auto.
  destruct (IH (print (py "Saved cleaned file to " ++ c :: p) w)) as [-> ->]. auto.
Qed.

Lemma collect_raise results w :
  (exists e, In (Raise e) results) ->
  exists e, snd (collect results w) = Raise e /\ In (Raise e) results.
Proof.
  revert w. induction results as [|r results IH]; intros w [e Hin].
  - destruct Hin.
  - assert (r <> Raise e -> exists e, In (Raise e) results) as Hrest.
    { intros Hne. destruct Hin; [congruence | eauto]. }
    destruct r as [[[|c p]|]|e']; cbn [collect].
    + destruct (IH w) as (e0 & ? & ?); [apply Hrest; discriminate|].
      exists e0. simpl. auto.
    + destruct (IH (print (py "Saved cleaned file to " ++ c :: p) w))
        as (e0 & ? & ?); [apply Hrest; discriminate|].
      exists e0. simpl. auto.
    + destruct (IH w) as (e0 & ? & ?); [apply Hrest; discriminate|].
      exists e0. simpl. auto.
    + exists e'. simpl. auto.
Qed.

Lemma collect_ok results w :
  (forall e, ~ In (Raise e) results) -> snd (collect results w) = Ok tt.
Proof.
  revert w. induction results as [|r results IH]; intros w Hno; [reflexivity|].
  assert (forall e, ~ In (Raise e) results) as Hrest
    by (intros e He; apply (Hno e); simpl; auto).
  destruct r as [[[|c p]|]|e]; cbn [collect]; auto.
  destruct (Hno e). simpl. auto.
Qed.

(** ** The run with a selection *)

Lemma main_run datasets io order w sel :
  select datasets (load_metadata w) = Ok sel ->
  sel <> [] ->
  main (Ok datasets) io order w =
  let '(metadata, w1, results) := run_tasks io sel order (load_metadata w) w in
  match collect results w1 with
  | (w2, Raise e) => (w2, Raise e)
  | (w2, Ok _) =>
      (print (py "Ingestion complete.") (save_metadata metadata w2), Ok tt)
  end.
Proof.
  intros H Hne. unfold main. rewrite H.
  destruct sel; [contradiction | reflexivity].
Qed.

(** C1 as amended: an exception of a task is not caught. When a dispatched
    task raises, [future.result()] raises it again in [main], and the run ends
    with the exception of one of its tasks before [save_metadata]: the metadata
    file is as it was before the run. The pool still runs every task, so the
    output file of every task that returned a path exists. *)
Theorem main_task_failure_unwinds datasets io order w sel i d e :
  select datasets (load_metadata w) = Ok sel ->
  In i order ->
  sel !! i = Some d ->
  task_result (io i) d = Raise e ->
  exists e' w',
    main (Ok datasets) io order w = (w', Raise e') /\
    (exists j d',
       In j order /\ sel !! j = Some d' /\ task_result (io j) d' = Raise e') /\
    metadata_file w' = metadata_file w /\
    (forall j d' path,
       In j order -> sel !! j = Some d' ->
       task_result (io j) d' = Ok (Some path) -> is_Some (files w' !! path)).
Proof.
  intros Hsel Hi Hd He.
  assert (sel <> []) as Hne by (intros ->; discriminate).
  rewrite (main_run _ _ _ _ _ Hsel Hne).
  pose proof (run_tasks_effects io sel order (load_metadata w) w) as Hrun.
  destruct (run_tasks io sel order (load_metadata w) w) as [[metadata1 w1] results].
  destruct Hrun as (Hres & Hfile & _ & Hdone).
  destruct (collect_raise results w1) as (e' & Hc & Hin).
  { exists e. apply Hres. eauto. }
  destruct (collect_frame results w1) as [Hfiles Hmeta].
  destruct (collect results w1) as [w2 r]. simpl in *. subst r.
  exists e', w2. split; [reflexivity|]. split; [|split].
  - apply Hres in Hin as (j & d' & ? & ? & ?). eauto.
  - congruence.
  - intros j d' path Hj Hd' Hp. rewrite Hfiles. eauto.
Qed.

(** C3 as amended: [process_dataset] itself assigns the entry of its
    identifier in the shared dictionary, when it returns a path; when it
    returns [None] or raises, it leaves the dictionary as it is. [main] has no
    merge step: when no task raises, it saves the dictionary as the tasks
    left it. *)
Theorem process_dataset_assigns_state :
  (forall io d metadata w,
     fst (fst (process_dataset io d metadata w)) =
     match task_result io d with
     | Ok (Some _) => dict_set (identifier d) (modified d) metadata
     | _ => metadata
     end) /\
  (forall datasets io order w sel,
     select datasets (load_metadata w) = Ok sel ->
     sel <> [] ->
     (forall i d, In i order -> sel !! i = Some d ->
        is_raise (task_result (io i) d) = false) ->
     snd (main (Ok datasets) io order w) = Ok tt /\
     metadata_file (fst (main (Ok datasets) io order w)) =
       Some (json_dump (fst (fst (run_tasks io sel order (load_metadata w) w))))).
Proof.
  split.
  - intros io d metadata w.
    pose proof (process_dataset_effects io d metadata w) as Hp.
    destruct (process_dataset io d metadata w) as [[metadata' w'] r].
    destruct Hp as (<- & _ & _ & Hm). simpl.
    destruct r as [[path|]|e]; tauto.
  - intros datasets io order w sel Hsel Hne Hok.
    rewrite (main_run _ _ _ _ _ Hsel Hne).
    pose proof (run_tasks_effects io sel order (load_metadata w) w) as Hrun.
    destruct (run_tasks io sel order (load_metadata w) w) as [[metadata1 w1] results].
    destruct Hrun as (Hres & _).
    pose proof (collect_ok results w1) as Hc.
    destruct (collect results w1) as [w2 r]. simpl in *.
    rewrite Hc; [auto|].
    intros e Hin. apply Hres in Hin as (i & d & Hi & Hd & He).
    specialize (Hok i d Hi Hd). rewrite <- He in Hok. discriminate.
Qed.

(** ** The order of timestamps *)

Lemma str_gt_trans a b c :
  str_gt a b = true -> str_gt b c = true -> str_gt a c = true.
Proof.
  revert b c. induction a as [|x a IH]; intros b c; simpl; [discriminate|].
  destruct b as [|y b]; [discriminate|].
  destruct c as [|z c]; [reflexivity|]. simpl.
  destruct (N.eqb_spec x y) as [->|Hxy].
  - destruct (N.eqb_spec y z) as [->|Hyz]; [apply IH | auto].
  - intros H1. apply N.ltb_lt in H1.
    destruct (N.eqb_spec y z) as [->|Hyz].
    + intros _. destruct (N.eqb_spec x z); [lia | apply N.ltb_lt; lia].
    + intros H2. apply N.ltb_lt in H2.
      destruct (N.eqb_spec x z); [lia | apply N.ltb_lt; lia].
Qed.

(** ** The dictionary and the metadata file *)

Lemma dict_set_fresh k v d :
  k ∉ map fst d -> dict_set k v d = d ++ [(k, v)].
Proof.
  induction d as [|[k' v'] d IH]; simpl; [reflexivity|].
  rewrite not_elem_of_cons. intros [Hne Hnin].
  rewrite decide_False by exact Hne. rewrite IH by exact Hnin. reflexivity.
Qed.

Lemma dict_set_keys k v d x :
  x ∈ map fst (dict_set k v d) <-> x = k \/ x ∈ map fst d.
Proof.
  induction d as [|[k' v'] d IH]; simpl.
  - rewrite list_elem_of_singleton. split; [auto|].
    intros [-> | H]; [reflexivity | inversion H].
  - destruct (decide (k = k')) as [->|Hne]; simpl.
    + rewrite elem_of_cons. tauto.
    + rewrite !elem_of_cons, IH. tauto.
Qed.

Lemma dict_set_string_keys k v d :
  is_Some k -> string_keys d -> string_keys (dict_set k v d).
Proof.
  intros Hk [Hnd Hall]. split.
  - clear Hall. induction d as [|[k' v'] d IH]; [apply NoDup_singleton|].
    change (map fst ((k', v') :: d)) with (k' :: map fst d) in Hnd.
    apply NoDup_cons in Hnd as [Hnin Hnd].
    cbn [dict_set]. case_decide as Hne; [subst k'|].
    + change (NoDup (k :: map fst d)). apply NoDup_cons. auto.
    + change (NoDup (k' :: map fst (dict_set k v d))).
      apply NoDup_cons. split; [|apply IH, Hnd].
      rewrite dict_set_keys. intros [-> | H]; [congruence | contradiction].
  - clear Hnd. induction Hall as [|[k' v'] d Hk' Hd IH]; cbn [dict_set].
    + constructor; [exact Hk | constructor].
    + case_decide; constructor; auto.
Qed.

Lemma json_load_string_keys o : string_keys (json_load o).
Proof.
  unfold json_load.
  assert (string_keys []) as Hnil by (split; constructor).
  revert Hnil. generalize (@nil (key * value)).
  induction o as [|[k v] o IH]; intros acc Hacc; simpl; [exact Hacc|].
  apply IH, dict_set_string_keys; [eauto | exact Hacc].
Qed.

Lemma load_metadata_string_keys w : string_keys (load_metadata w).
Proof.
  unfold load_metadata. destruct (metadata_file w).
  - apply json_load_string_keys.
  - split; constructor.
Qed.

(** Saved and loaded again, a dictionary with string keys is the same. *)
Lemma json_load_dump d : string_keys d -> json_load (json_dump d) = d.
Proof.
  unfold json_load.
  enough (forall acc,
    string_keys (acc ++ d) ->
    fold_left (fun d kv => dict_set (Some (fst kv)) (snd kv) d) (json_dump d) acc
    = acc ++ d) as H by (intros Hd; apply (H [] Hd)).
  induction d as [|[k v] d IH]; intros acc [Hnd Hall]; simpl.
  - rewrite app_nil_r. reflexivity.
  - assert (is_Some k) as [s ->].
    { apply Forall_app in Hall as [_ Hall]. inversion Hall; assumption. }
    simpl. rewrite dict_set_fresh.
    + rewrite IH; rewrite <- app_assoc; [reflexivity|]. split; assumption.
    + rewrite map_app in Hnd. apply NoDup_app in Hnd as (_ & Hdisj & _).
      intros Hin. apply (Hdisj _ Hin). simpl. apply elem_of_cons. auto.
Qed.

(** ** The state after the pool *)

Lemma run_tasks_metadata_cons io tasks i order metadata w :
  fst (fst (run_tasks io tasks (i :: order) metadata w)) =
  match tasks !! i with
  | Some d =>
      let '(metadata1, w1, _) := process_dataset (io i) d metadata w in
      fst (fst (run_tasks io tasks order metadata1 w1))
  | None => fst (fst (run_tasks io tasks order metadata w))
  end.
Proof.
  simpl. destruct (tasks !! i) as [d|]; [|reflexivity].
  destruct (process_dataset (io i) d metadata w) as [[metadata1 w1] r].
  destruct (run_tasks io tasks order metadata1 w1) as [[metadata2 w2] rs].
  reflexivity.
Qed.

(** A key that is the identifier of no task keeps its entry. *)
Lemma run_tasks_get_other io tasks order metadata w k :
  (forall j d, In j order -> tasks !! j = Some d -> identifier d <> k) ->
  dict_get k (fst (fst (run_tasks io tasks order metadata w))) = dict_get k metadata.
Proof.
  revert metadata w. induction order as [|i order IH]; intros metadata w Hk;
    [reflexivity|].
  rewrite run_tasks_metadata_cons.
  assert (forall j d, In j order -> tasks !! j = Some d -> identifier d <> k)
    as Hrest by (intros j d Hj; apply Hk; simpl; auto).
  destruct (tasks !! i) as [d|] eqn:Ei; [|apply IH, Hrest].
  pose proof (process_dataset_effects (io i) d metadata w) as Hp.
  destruct (process_dataset (io i) d metadata w) as [[metadata1 w1] r].
  destruct Hp as (_ & _ & _ & Hm).
  rewrite IH by exact Hrest.
  destruct r as [[path|]|e]; try (subst metadata1; reflexivity).
  destruct Hm as [-> _]. apply dict_get_set_ne. apply (Hk i d); simpl; auto.
Qed.

(** When every task of the pool returns a path and no two tasks have the same
    identifier, the entry of each identifier holds the modified timestamp of
    its descriptor. *)
Lemma run_tasks_get_done io tasks order metadata w i d :
  NoDup (map identifier tasks) ->
  (forall j d', In j order -> tasks !! j = Some d' ->
     exists path, task_result (io j) d' = Ok (Some path)) ->
  In i order ->
  tasks !! i = Some d ->
  dict_get (identifier d) (fst (fst (run_tasks io tasks order metadata w)))
  = Some (modified d).
Proof.
  intros Hnd. revert metadata w.
  induction order as [|j order IH]; intros metadata w Hok Hi Hd; [destruct Hi|].
  rewrite run_tasks_metadata_cons.
  assert (forall j d', In j order -> tasks !! j = Some d' ->
     exists path, task_result (io j) d' = Ok (Some path))
    as Hrest by (intros j' d' Hj; apply Hok; simpl; auto).
  destruct (in_dec Nat.eq_dec i order) as [Hin | Hnin].
  - destruct (tasks !! j) as [dj|]; [|apply IH; assumption].
    destruct (process_dataset (io j) dj metadata w) as [[metadata1 w1] r].
    apply IH; assumption.
  - destruct Hi as [-> | Hi]; [|contradiction]. rewrite Hd.
    pose proof (process_dataset_effects (io i) d metadata w) as Hp.
    destruct (process_dataset (io i) d metadata w) as [[metadata1 w1] r].
    destruct Hp as (-> & _ & _ & Hm).
    destruct (Hok i d) as [path Hpath]; simpl; auto.
    rewrite Hpath in Hm. destruct Hm as [-> _].
    rewrite run_tasks_get_other; [apply dict_get_set_eq|].
    intros j' d' Hj' Hd' Heq. apply Hnin.
    assert (j' = i) as <-; [|exact Hj'].
    apply (NoDup_lookup (map identifier tasks) j' i (identifier d) Hnd).
    + rewrite list_lookup_fmap, Hd', <- Heq. reflexivity.
    + rewrite list_lookup_fmap, Hd. reflexivity.
Qed.

Lemma run_tasks_string_keys io tasks order metadata w :
  string_keys metadata ->
  (forall j d, In j order -> tasks !! j = Some d -> is_Some (identifier d)) ->
  string_keys (fst (fst (run_tasks io tasks order metadata w))).
Proof.
  revert metadata w. induction order as [|i order IH]; intros metadata w Hsk Hids;
    [exact Hsk|].
  rewrite run_tasks_metadata_cons.
  assert (forall j d, In j order -> tasks !! j = Some d -> is_Some (identifier d))
    as Hrest by (intros j d Hj; apply Hids; simpl; auto).
  destruct (tasks !! i) as [d|] eqn:Ei; [|apply IH; assumption].
  pose proof (process_dataset_effects (io i) d metadata w) as Hp.
  destruct (process_dataset (io i) d metadata w) as [[metadata1 w1] r].
  destruct Hp as (_ & _ & _ & Hm).
  apply IH; [|exact Hrest].
  destruct r as [[path|]|e]; try (subst metadata1; exact Hsk).
  destruct Hm as [-> _]. apply dict_set_string_keys; [|exact Hsk].
  apply (Hids i d); simpl; auto.
Qed.

(** ** The selection, element by element *)

Lemma select_step d datasets metadata sel :
  select (d :: datasets) metadata = Ok sel ->
  exists b rest,
    (if is_hospital_dataset d then needs_update d metadata else Ok false) = Ok b /\
    select datasets metadata = Ok rest /\
    sel = if b then d :: rest else rest.
Proof.
  simpl.
  destruct (if is_hospital_dataset d then _ else _) as [b|e]; [|discriminate].
  simpl. destruct (select datasets metadata) as [rest|e]; [|discriminate].
  simpl. intros [= <-]. eauto.
Qed.

Lemma select_elements datasets metadata sel :
  select datasets metadata = Ok sel ->
  (forall d, In d datasets ->
     is_hospital_dataset d = false \/
     needs_update d metadata = Ok false \/
     (needs_update d metadata = Ok true /\ In d sel)) /\
  (forall d, In d sel ->
     is_hospital_dataset d = true /\ needs_update d metadata = Ok true).
Proof.
  revert sel. induction datasets as [|d0 datasets IH]; intros sel Hsel.
  - injection Hsel as <-. split; intros d [].
  - apply select_step in Hsel as (b & rest & Hb & Hrest & ->).
    destruct (IH rest Hrest) as [IH1 IH2].
    destruct (is_hospital_dataset d0) eqn:Eh.
    + split.
      * intros d [<- | Hin].
        -- destruct b; simpl; auto.
        -- destruct (IH1 d Hin) as [? | [? | [? ?]]]; auto.
           right. right. destruct b; simpl; auto.
      * destruct b; [|exact IH2]. intros d [<- | Hin]; auto.
    + injection Hb as <-. split; [|exact IH2].
      intros d [<- | Hin]; auto.
Qed.

Lemma select_none datasets metadata :
  (forall d, In d datasets ->
     is_hospital_dataset d = false \/ needs_update d metadata = Ok false) ->
  select datasets metadata = Ok [].
Proof.
  induction datasets as [|d datasets IH]; intros H; simpl; [reflexivity|].
  rewrite IH by (intros; apply H; simpl; auto).
  destruct (H d) as [-> | Hn]; simpl; auto.
  destruct (is_hospital_dataset d); [rewrite Hn|]; reflexivity.
Qed.

(** ** Two runs *)

(** C6 as amended: when every descriptor selected in the first run has an
    identifier and a modified timestamp, no two of them have the same
    identifier, and the task of each returns a path (none is skipped, none
    raises), then the first run ends normally and a second run on the same
    catalog selects nothing. *)
Theorem second_run_selects_nothing datasets io order w sel :
  select datasets (load_metadata w) = Ok sel ->
  Permutation order (seq 0 (length sel)) ->
  NoDup (map identifier sel) ->
  (forall i d, sel !! i = Some d ->
     is_Some (identifier d) /\ is_Some (modified d) /\
     exists path, task_result (io i) d = Ok (Some path)) ->
  snd (main (Ok datasets) io order w) = Ok tt /\
  select datasets (load_metadata (fst (main (Ok datasets) io order w))) = Ok [] /\
  (forall io2 order2,
     snd (main (Ok datasets) io2 order2 (fst (main (Ok datasets) io order w)))
     = Ok tt /\
     files (fst (main (Ok datasets) io2 order2
                   (fst (main (Ok datasets) io order w))))
     = files (fst (main (Ok datasets) io order w))).
Proof.
  intros Hsel Hperm Hnd Hall.
  enough (snd (main (Ok datasets) io order w) = Ok tt /\
          select datasets (load_metadata (fst (main (Ok datasets) io order w)))
          = Ok []) as [H1 H2].
  { split; [exact H1|]. split; [exact H2|].
    intros io2 order2. unfold main at 1 3. rewrite H2. auto. }
  assert (sel = [] \/ sel <> []) as [-> | Hne]
    by (destruct sel; [left; reflexivity | right; discriminate]).
  { unfold main. rewrite Hsel. simpl. split; [reflexivity | exact Hsel]. }
  assert (forall i d, sel !! i = Some d -> In i order) as Hdispatched.
  { intros i d Hi. apply Permutation_in with (l := seq 0 (length sel)).
    - symmetry. exact Hperm.
    - apply in_seq. apply lookup_lt_Some in Hi. lia. }
  rewrite (main_run _ _ _ _ _ Hsel Hne).
  pose proof (run_tasks_effects io sel order (load_metadata w) w) as Hrun.
  pose proof (fun i d =>
    run_tasks_get_done io sel order (load_metadata w) w i d Hnd) as Hdone.
  pose proof (run_tasks_get_other io sel order (load_metadata w) w) as Hother.
  pose proof (run_tasks_string_keys io sel order (load_metadata w) w
                (load_metadata_string_keys w)) as Hkeys.
  destruct (run_tasks io sel order (load_metadata w) w) as [[metadata1 w1] results].
  simpl in Hdone, Hother, Hkeys. destruct Hrun as (Hres & _).
  assert (forall i d, In i order -> sel !! i = Some d ->
            exists path, task_result (io i) d = Ok (Some path)) as Hok
    by (intros i d _ Hi; apply (Hall i d Hi)).
  pose proof (collect_ok results w1) as Hc.
  destruct (collect results w1) as [w2 r]. simpl in Hc. rewrite Hc.
  2:{ intros e Hin. apply Hres in Hin as (i & d & Hi & Hd & He).
      destruct (Hok i d Hi Hd) as [path Hpath]. congruence. }
  simpl. split; [reflexivity|].
  change (load_metadata (print (py "Ingestion complete.")
                           (save_metadata metadata1 w2)))
    with (json_load (json_dump metadata1)).
  rewrite json_load_dump by (apply Hkeys; intros i d _ Hi; apply (Hall i d Hi)).
  apply select_none. intros d Hd.
  destruct (select_elements _ _ _ Hsel) as [Helem Hsound].
  destruct (Helem d Hd) as [Hnh | [Hfalse | [Htrue Hdsel]]]; [left; exact Hnh | |];
    right.
  - (* not due in the first run *)
    unfold needs_update in Hfalse |- *. unfold dict_mem in *.
    destruct (dict_get (identifier d) (load_metadata w)) as [stored|] eqn:Eg;
      [|discriminate]. simpl in Hfalse.
    destruct (modified d) as [a|]; [|discriminate].
    destruct stored as [b|]; [|discriminate]. injection Hfalse as Hab.
    destruct (decide (identifier d ∈ map identifier sel)) as [Hin | Hnin].
    + apply list_elem_of_fmap in Hin as (d' & Hid & Hd').
      pose proof Hd' as Hd'sel. apply list_elem_of_lookup in Hd' as [i Hi].
      apply list_elem_of_In, Hsound in Hd'sel as [_ Hup].
      unfold needs_update, dict_mem in Hup. rewrite <- Hid, Eg in Hup.
      simpl in Hup. destruct (modified d') as [a'|] eqn:Ea'; [|discriminate].
      injection Hup as Ha'b.
      rewrite Hid, (Hdone i d' Hok (Hdispatched i d' Hi) Hi), Ea'. simpl.
      f_equal. destruct (str_gt a a') eqn:Eaa'; [|reflexivity].
      rewrite (str_gt_trans _ _ _ Eaa' Ha'b) in Hab. discriminate.
    + rewrite Hother, Eg; [simpl; rewrite Hab; reflexivity|].
      intros j d' _ Hj Heq. apply Hnin. rewrite <- Heq.
      apply list_elem_of_fmap_2. eapply list_elem_of_lookup_2, Hj.
  - (* processed in the first run *)
    apply list_elem_of_In, list_elem_of_lookup in Hdsel as [i Hi].
    destruct (Hall i d Hi) as (_ & [ts Hts] & _).
    unfold needs_update, dict_mem.
    rewrite (Hdone i d Hok (Hdispatched i d Hi) Hi), Hts. simpl.
    rewrite str_gt_irrefl. reflexivity.
Qed.

(** * Further properties *)

(** ** The shape of a normalized name *)

Lemma single_underscores_no_double b before after :
  single_underscores b (before ++ underscore :: underscore :: after) = false.
Proof.
  revert b. induction before as [|c before IH]; intros b.
  - simpl. change (is_alnum underscore) with false.
    change (is_underscore underscore) with true. simpl.
    rewrite andb_false_r. reflexivity.
  - simpl. destruct (is_alnum c); [apply IH|].
    rewrite IH. apply andb_false_r.
Qed.

Lemma lstrip_head p s c rest : lstrip p s = c :: rest -> p c = false.
Proof.
  induction s as [|c' s IH]; simpl; [discriminate|].
  destruct (p c') eqn:E; [exact IH|]. intros [= <- _]. exact E.
Qed.

Lemma trim_trailing_head s c rest :
  trim_trailing s = c :: rest -> exists rest', s = c :: rest'.
Proof.
  destruct s as [|c' s]; simpl; [discriminate|].
  destruct (trim_trailing s).
  - destruct (is_underscore c'); [discriminate|]. intros [= <- _]. eauto.
  - intros [= <- _]. eauto.
Qed.

Lemma trim_trailing_last s rest c :
  trim_trailing s = rest ++ [c] -> is_underscore c = false.
Proof.
  revert rest. induction s as [|c' s IH]; intros rest; simpl.
  - destruct rest; discriminate.
  - destruct (trim_trailing s) as [|d t] eqn:E.
    + destruct (is_underscore c') eqn:Eu.
      * destruct rest; discriminate.
      * destruct rest as [|r [|r' rest]]; try discriminate.
        intros [= <-]. exact Eu.
    + destruct rest as [|r rest]; [destruct t; discriminate|].
      intros [= _ H]. apply (IH rest). exact H.
Qed.

Lemma underscore_not_alnum c : is_underscore c = true -> is_alnum c = false.
Proof. intros H. apply N.eqb_eq in H. subst c. reflexivity. Qed.

Lemma apostrophe_not_alnum c : is_apostrophe c = true -> is_alnum c = false.
Proof.
  unfold is_apostrophe. intros H. apply orb_prop in H as [H | H];
    apply N.eqb_eq in H; subst c; reflexivity.
Qed.

Lemma filter_alnum_lstrip s :
  List.filter is_alnum (lstrip is_underscore s) = List.filter is_alnum s.
Proof.
  induction s as [|c s IH]; simpl; [reflexivity|].
  destruct (is_underscore c) eqn:Eu; [|reflexivity].
  rewrite (underscore_not_alnum _ Eu). exact IH.
Qed.

Lemma filter_alnum_trim_trailing s :
  List.filter is_alnum (trim_trailing s) = List.filter is_alnum s.
Proof.
  induction s as [|c s IH]; simpl; [reflexivity|].
  destruct (trim_trailing s) as [|d t] eqn:E.
  - rewrite <- IH. destruct (is_underscore c) eqn:Eu.
    + rewrite (underscore_not_alnum _ Eu). reflexivity.
    + simpl. destruct (is_alnum c); reflexivity.
  - change (List.filter is_alnum (c :: d :: t)) with
      (if is_alnum c then c :: List.filter is_alnum (d :: t)
       else List.filter is_alnum (d :: t)).
    rewrite IH. reflexivity.
Qed.

Lemma filter_alnum_sub_non_alnum in_run s :
  List.filter is_alnum (sub_non_alnum in_run s) = List.filter is_alnum s.
Proof.
  revert in_run. induction s as [|c s IH]; intros in_run; simpl; [reflexivity|].
  destruct (is_alnum c) eqn:Ec.
  - simpl. rewrite Ec, IH. reflexivity.
  - destruct in_run; [apply IH|]. simpl.
    change (is_alnum underscore) with false. apply IH.
Qed.

Lemma filter_alnum_apostrophes s :
  List.filter is_alnum (List.filter (fun c => negb (is_apostrophe c)) s)
  = List.filter is_alnum s.
Proof.
  induction s as [|c s IH]; simpl; [reflexivity|].
  destruct (is_apostrophe c) eqn:Ea; simpl.
  - rewrite (apostrophe_not_alnum _ Ea). exact IH.
  - rewrite IH. reflexivity.
Qed.

Lemma lstrip_length p s : (length (lstrip p s) <= length s)%nat.
Proof.
  induction s as [|c s IH]; simpl; [lia|]. destruct (p c); simpl; lia.
Qed.

Lemma trim_trailing_length s : (length (trim_trailing s) <= length s)%nat.
Proof.
  induction s as [|c s IH]; simpl; [lia|].
  destruct (trim_trailing s); [destruct (is_underscore c)|]; simpl in *; lia.
Qed.

Lemma sub_non_alnum_length in_run s :
  (length (sub_non_alnum in_run s) <= length s)%nat.
Proof.
  revert in_run. induction s as [|c s IH]; intros in_run; simpl; [lia|].
  pose proof (IH true). pose proof (IH false).
  destruct (is_alnum c); [|destruct in_run]; simpl; lia.
Qed.

Lemma to_snake_case_alnum x :
  List.filter is_alnum (to_snake_case x) = List.filter is_alnum (lower x).
Proof.
  unfold to_snake_case.
  rewrite strip_trim, filter_alnum_trim_trailing, filter_alnum_lstrip,
    filter_alnum_sub_non_alnum, filter_alnum_apostrophes.
  reflexivity.
Qed.

Lemma to_snake_case_head x rest : to_snake_case x <> underscore :: rest.
Proof.
  unfold to_snake_case. rewrite strip_trim. intros H.
  apply trim_trailing_head in H as [rest' H].
  apply lstrip_head in H. discriminate.
Qed.

(** X1: a normalized name consists of lowercase ASCII letters, digits and
    underscores; it has no two underscores in a row and no underscore at
    either end. *)
Theorem to_snake_case_shape x :
  Forall (fun c => (97 <= c <= 122) \/ (48 <= c <= 57) \/ c = 95)
    (to_snake_case x) /\
  (forall before after,
     to_snake_case x <> before ++ underscore :: underscore :: after) /\
  (forall rest, to_snake_case x <> underscore :: rest) /\
  (forall rest, to_snake_case x <> rest ++ [underscore]).
Proof.
  pose proof (to_snake_case_form x) as Hform. repeat split.
  - apply single_underscores_chars in Hform.
    eapply Forall_impl; [exact Hform|]. simpl. intros c [Hc | ->].
    + apply is_alnum_range in Hc. tauto.
    + right. right. reflexivity.
  - intros before after H. rewrite H, single_underscores_no_double in Hform.
    discriminate.
  - apply to_snake_case_head.
  - intros rest H. unfold to_snake_case in H. rewrite strip_trim in H.
    apply trim_trailing_last in H. discriminate.
Qed.

(** X2: the letters and digits of a normalized name are those of the
    lowercased header, in the same order; the name is not longer than the
    lowercased header. *)
Theorem to_snake_case_keeps_alnum x :
  List.filter is_alnum (to_snake_case x) = List.filter is_alnum (lower x) /\
  (length (to_snake_case x) <= length (lower x))%nat.
Proof.
  split; [apply to_snake_case_alnum|].
  unfold to_snake_case. rewrite strip_trim.
  etransitivity; [apply trim_trailing_length|].
  etransitivity; [apply lstrip_length|].
  etransitivity; [apply sub_non_alnum_length|].
  apply List.filter_length_le.
Qed.

(** X3: the normalized name is empty exactly when the lowercased header has
    no letter of [a-z] and no digit. *)
Theorem to_snake_case_empty_iff x :
  to_snake_case x = [] <-> List.filter is_alnum (lower x) = [].
Proof.
  rewrite <- to_snake_case_alnum. split; [intros ->; reflexivity|].
  intros H. destruct (to_snake_case x) as [|c rest] eqn:E; [reflexivity|].
  pose proof (to_snake_case_form x) as Hform. rewrite E in Hform.
  simpl in H, Hform. destruct (is_alnum c); [discriminate|].
  apply andb_prop in Hform as [Hu _]. apply andb_prop in Hu as [Hu _].
  apply N.eqb_eq in Hu. subst c. destruct (to_snake_case_head x rest E).
Qed.

(** X4: in an ASCII header a straight apostrophe joins its neighbours: the
    name is the one of the header without the apostrophe. *)
Theorem to_snake_case_apostrophe x y :
  forallb is_ascii x = true ->
  forallb is_ascii y = true ->
  to_snake_case (x ++ 39 :: y) = to_snake_case (x ++ y).
Proof.
  intros Hx Hy. unfold to_snake_case, lower.
  assert (forallb is_ascii (x ++ 39 :: y) = true) as ->
    by (rewrite forallb_app; simpl; rewrite Hx, Hy; reflexivity).
  assert (forallb is_ascii (x ++ y) = true) as ->
    by (rewrite forallb_app, Hx, Hy; reflexivity).
  rewrite !map_app, !List.filter_app. reflexivity.
Qed.

(** ** One dataset, again *)

Lemma dict_set_twice k v d : dict_set k v (dict_set k v d) = dict_set k v d.
Proof.
  induction d as [|[k' v'] d IH]; cbn [dict_set].
  - rewrite decide_True by reflexivity. reflexivity.
  - case_decide as Hk; cbn [dict_set].
    + rewrite decide_True by reflexivity. reflexivity.
    + rewrite decide_False by exact Hk. rewrite IH. reflexivity.
Qed.


(** X5: [process_dataset] leaves alone what is not its own: the metadata
    file, every file but the output file of its dataset, every entry of the
    dictionary but the one of its identifier; it only adds to the output; the
    path it returns is the output path of its dataset. *)
Theorem process_dataset_frame io d metadata w :
  let '(metadata', w', r) := process_dataset io d metadata w in
  metadata_file w' = metadata_file w /\
  (forall path, path <> output_path d -> files w' !! path = files w !! path) /\
  (forall k, k <> identifier d -> dict_get k metadata' = dict_get k metadata) /\
  (exists lines, stdout w' = stdout w ++ lines) /\
  (forall path, r = Ok (Some path) -> path = output_path d).
Proof.
  unfold process_dataset, output_path. cbv zeta.
  assert (exists lines, stdout w = stdout w ++ lines) as Hnone
    by (exists []; rewrite app_nil_r; reflexivity).
  destruct (default _ (distribution d)) as [|first others];
    [repeat split; auto; discriminate|].
  destruct (downloadURL first) as [[|c url]|];
    try (repeat split; auto; discriminate).
  destruct (read_csv io (c :: url)) as [df|e];
    [|repeat split; simpl; eauto; discriminate].
  destruct (makedirs io); [repeat split; simpl; eauto; discriminate|].
  destruct (to_csv io _ _) as [|e partial].
  - repeat split; simpl; eauto.
    + intros path Hne. apply lookup_insert_ne. congruence.
    + intros k Hne. apply dict_get_set_ne. congruence.
    + intros path [= <-]. reflexivity.
  - destruct partial; repeat split; simpl; eauto; try discriminate.
    intros path Hne. apply lookup_insert_ne. congruence.
Qed.

(** X6: processing the same dataset once more, with the same answers of the
    outside world, gives the same result and changes neither the dictionary
    nor the files: the output file is overwritten by itself. *)
Theorem process_dataset_again io d metadata w :
  let '(metadata1, w1, r1) := process_dataset io d metadata w in
  let '(metadata2, w2, r2) := process_dataset io d metadata1 w1 in
  r2 = r1 /\ metadata2 = metadata1 /\ files w2 = files w1 /\
  metadata_file w2 = metadata_file w1.
Proof.
  unfold process_dataset. cbv zeta.
  destruct (default _ (distribution d)) as [|first others]; [auto|].
  destruct (downloadURL first) as [[|c url]|]; [auto | | auto].
  destruct (read_csv io (c :: url)) as [df|e]; [|auto].
  destruct (makedirs io); [auto|].
  destruct (to_csv io _ _) as [|e partial].
  - repeat split; simpl.
    + apply dict_set_twice.
    + apply insert_insert_eq.
  - destruct partial; repeat split; simpl. apply insert_insert_eq.
Qed.

(** X7: a dataset that has just been processed is not due any more; when it
    has no modified timestamp, asking again raises [TypeError], since the
    recorded value is [None]. *)
Theorem needs_update_after_process io d metadata w path :
  task_result io d = Ok (Some path) ->
  needs_update d (fst (fst (process_dataset io d metadata w))) =
  match modified d with
  | Some _ => Ok false
  | None => Raise TypeError
  end.
Proof.
  intros Hres.
  pose proof (process_dataset_effects io d metadata w) as Hp.
  destruct (process_dataset io d metadata w) as [[metadata' w'] r].
  destruct Hp as (-> & _ & _ & Hm). rewrite Hres in Hm. destruct Hm as [-> _].
  simpl. unfold needs_update, dict_mem. rewrite dict_get_set_eq. simpl.
  destruct (modified d); [rewrite str_gt_irrefl|]; reflexivity.
Qed.

(** ** Output paths *)



(** ** The selection on every catalog *)

Lemma select_head_step metadata d :
  (if is_hospital_dataset d then needs_update d metadata else Ok false) =
  if incomparable metadata d then Raise TypeError
  else Ok (qualifies metadata d).
Proof.
  unfold incomparable, qualifies, needs_update, dict_mem.
  destruct (is_hospital_dataset d); [|reflexivity]. simpl.
  destruct (dict_get (identifier d) metadata) as [[b|]|]; simpl;
    destruct (modified d); reflexivity.
Qed.

(** X10: on catalog items whose fields, where present, are strings, the
    selection raises [TypeError] exactly when the catalog has a hospital
    dataset whose identifier is in the state and whose modified timestamp or
    recorded value is missing; otherwise it is the catalog filtered by the
    two predicates. *)
Theorem select_total datasets metadata :
  select datasets metadata =
  if existsb (incomparable metadata) datasets then Raise TypeError
  else Ok (List.filter (qualifies metadata) datasets).
Proof.
  induction datasets as [|d datasets IH]; [reflexivity|].
  cbn [select existsb List.filter]. rewrite select_head_step, IH.
  destruct (incomparable metadata d); [reflexivity|]. simpl.
  destruct (existsb (incomparable metadata) datasets); reflexivity.
Qed.


Lemma string_keys_get_None metadata :
  string_keys metadata -> dict_get None metadata = None.
Proof.
  intros [_ Hall]. induction Hall as [|[k v] d [s Hk] _ IH]; [reflexivity|].
  simpl in Hk. subst k. cbn [dict_get].
  rewrite decide_False by discriminate. exact IH.
Qed.

(** X12: a dataset without identifier is due on every run, whatever the
    metadata file holds: what a run records for it is saved under the key
    [null], where the next run does not look. *)
Theorem needs_update_without_identifier d w :
  identifier d = None ->
  needs_update d (load_metadata w) = Ok true /\
  (forall metadata,
     needs_update d (load_metadata (save_metadata metadata w)) = Ok true).
Proof.
  intros Hid.
  assert (forall w', needs_update d (load_metadata w') = Ok true) as H.
  { intros w'. unfold needs_update, dict_mem. rewrite Hid.
    rewrite (string_keys_get_None _ (load_metadata_string_keys w')).
    reflexivity. }
  split; [apply H | intros metadata; apply H].
Qed.

Lemma json_load_members o :
  NoDup (map fst o) ->
  json_load o = map (fun kv => (Some (fst kv), snd kv)) o.
Proof.
  unfold json_load.
  enough (forall acc : dict,
    NoDup (map fst acc ++ map (fun kv => Some (fst kv)) o) ->
    fold_left (fun d kv => dict_set (Some (fst kv)) (snd kv) d) o acc
    = acc ++ map (fun kv => (Some (fst kv), snd kv)) o) as H.
  { intros Hnd. apply (H []). simpl.
    rewrite <- (map_map fst Some). apply NoDup_fmap_2; [|exact Hnd].
    intros x y [= ->]. reflexivity. }
  induction o as [|[k v] o IH]; intros acc Hnd; simpl.
  - rewrite app_nil_r. reflexivity.
  - rewrite dict_set_fresh.
    + rewrite IH.
      * rewrite <- app_assoc. reflexivity.
      * rewrite map_app, <- app_assoc. exact Hnd.
    + apply NoDup_app in Hnd as (_ & Hdisj & _).
      intros Hin. apply (Hdisj _ Hin). simpl. apply elem_of_cons. auto.
Qed.

(** X13: what [load_metadata] reads after [save_metadata], for a dictionary
    whose keys stay apart when written: the same entries in the same order,
    the key [None] turned into the string [null]; a dictionary whose keys
    are strings is read back as it was saved. *)
Theorem load_save_metadata metadata w :
  NoDup (map (fun kv => json_key (fst kv)) metadata) ->
  load_metadata (save_metadata metadata w)
    = map (fun kv => (Some (json_key (fst kv)), snd kv)) metadata /\
  (Forall (fun kv => is_Some (fst kv)) metadata ->
   load_metadata (save_metadata metadata w) = metadata).
Proof.
  intros Hnd.
  assert (load_metadata (save_metadata metadata w)
          = map (fun kv => (Some (json_key (fst kv)), snd kv)) metadata) as Hload.
  { unfold load_metadata, save_metadata. simpl. rewrite json_load_members.
    - unfold json_dump. rewrite map_map. reflexivity.
    - unfold json_dump. rewrite map_map. exact Hnd. }
  split; [exact Hload|].
  intros Hkeys. rewrite Hload. rewrite <- (map_id metadata) at 2.
  apply map_ext_Forall. eapply Forall_impl; [exact Hkeys|].
  intros [k v] [name Hk]. simpl in *. subst k. reflexivity.
Qed.

(** X14: saving what was loaded from a file that lists no key twice writes
    the same members in the same order. *)
Theorem save_load_metadata w o :
  metadata_file w = Some o ->
  NoDup (map fst o) ->
  metadata_file (save_metadata (load_metadata w) w) = Some o.
Proof.
  intros Hfile Hnd. unfold save_metadata, load_metadata. simpl.
  rewrite Hfile, (json_load_members _ Hnd). f_equal.
  unfold json_dump. rewrite map_map. simpl.
  rewrite <- (map_id o) at 2. apply map_ext. intros [k v]. reflexivity.
Qed.

(** ** The dictionary after the pool, task by task *)

(** An entry is as before when no task with its key returns a path. *)
Lemma run_tasks_get_unchanged io tasks order metadata w k :
  (forall j d path, In j order -> tasks !! j = Some d -> identifier d = k ->
     task_result (io j) d <> Ok (Some path)) ->
  dict_get k (fst (fst (run_tasks io tasks order metadata w))) = dict_get k metadata.
Proof.
  revert metadata w. induction order as [|i order IH]; intros metadata w Hk;
    [reflexivity|].
  rewrite run_tasks_metadata_cons.
  assert (forall j d path, In j order -> tasks !! j = Some d -> identifier d = k ->
            task_result (io j) d <> Ok (Some path))
    as Hrest by (intros j d path Hj; apply Hk; simpl; auto).
  destruct (tasks !! i) as [d|] eqn:Ei; [|apply IH, Hrest].
  pose proof (process_dataset_effects (io i) d metadata w) as Hp.
  destruct (process_dataset (io i) d metadata w) as [[metadata1 w1] r].
  destruct Hp as (Hr & _ & _ & Hm).
  rewrite IH by exact Hrest.
  destruct r as [[path|]|e]; try (subst metadata1; reflexivity).
  destruct Hm as [-> _]. apply dict_get_set_ne. intros Hid.
  apply (Hk i d path); simpl; auto.
Qed.

(** The entry of a task that returns a path holds its modified timestamp,
    when no other task has its identifier. *)
Lemma run_tasks_get_recorded io tasks order metadata w i d path :
  NoDup (map identifier tasks) ->
  In i order ->
  tasks !! i = Some d ->
  task_result (io i) d = Ok (Some path) ->
  dict_get (identifier d) (fst (fst (run_tasks io tasks order metadata w)))
  = Some (modified d).
Proof.
  intros Hnd. revert metadata w.
  induction order as [|j order IH]; intros metadata w Hi Hd Hres; [destruct Hi|].
  rewrite run_tasks_metadata_cons.
  destruct (in_dec Nat.eq_dec i order) as [Hin | Hnin].
  - destruct (tasks !! j) as [dj|]; [|apply IH; assumption].
    destruct (process_dataset (io j) dj metadata w) as [[metadata1 w1] r].
    apply IH; assumption.
  - destruct Hi as [-> | Hi]; [|contradiction]. rewrite Hd.
    pose proof (process_dataset_effects (io i) d metadata w) as Hp.
    destruct (process_dataset (io i) d metadata w) as [[metadata1 w1] r].
    destruct Hp as (-> & _ & _ & Hm). rewrite Hres in Hm. destruct Hm as [-> _].
    rewrite run_tasks_get_other; [apply dict_get_set_eq|].
    intros j' d' Hj' Hd' Heq. apply Hnin.
    assert (j' = i) as <-; [|exact Hj'].
    apply (NoDup_lookup (map identifier tasks) j' i (identifier d) Hnd).
    + rewrite list_lookup_fmap, Hd', <- Heq. reflexivity.
    + rewrite list_lookup_fmap, Hd. reflexivity.
Qed.

(** The entry of one task after the pool. *)
Lemma run_tasks_entry io tasks order metadata w i d :
  NoDup (map identifier tasks) ->
  In i order ->
  tasks !! i = Some d ->
  dict_get (identifier d) (fst (fst (run_tasks io tasks order metadata w))) =
  match task_result (io i) d with
  | Ok (Some _) => Some (modified d)
  | _ => dict_get (identifier d) metadata
  end.
Proof.
  intros Hnd Hi Hd.
  destruct (task_result (io i) d) as [[path|]|e] eqn:Hres.
  - eapply run_tasks_get_recorded; eassumption.
  - apply run_tasks_get_unchanged. intros j d' path Hj Hd' Heq.
    assert (j = i) as ->.
    { apply (NoDup_lookup (map identifier tasks) j i (identifier d) Hnd).
      - rewrite list_lookup_fmap, Hd'. simpl. rewrite Heq. reflexivity.
      - rewrite list_lookup_fmap, Hd. reflexivity. }
    congruence.
  - apply run_tasks_get_unchanged. intros j d' path Hj Hd' Heq.
    assert (j = i) as ->.
    { apply (NoDup_lookup (map identifier tasks) j i (identifier d) Hnd).
      - rewrite list_lookup_fmap, Hd'. simpl. rewrite Heq. reflexivity.
      - rewrite list_lookup_fmap, Hd. reflexivity. }
    congruence.
Qed.

(** X15: in a pool whose tasks have different identifiers, the entry of a
    task holds the modified timestamp of its dataset when the task returns a
    path, and is as before the pool when the task is skipped or raises,
    whatever the other tasks do and in whatever order they complete; an
    entry whose key is the identifier of no task is as before the pool. *)
Theorem run_tasks_records io tasks order metadata w :
  NoDup (map identifier tasks) ->
  (forall i d,
     In i order -> tasks !! i = Some d ->
     dict_get (identifier d) (fst (fst (run_tasks io tasks order metadata w))) =
     match task_result (io i) d with
     | Ok (Some _) => Some (modified d)
     | _ => dict_get (identifier d) metadata
     end) /\
  (forall k,
     (forall j d, In j order -> tasks !! j = Some d -> identifier d <> k) ->
     dict_get k (fst (fst (run_tasks io tasks order metadata w)))
     = dict_get k metadata).
Proof.
  intros Hnd. split.
  - intros i d. apply run_tasks_entry, Hnd.
  - intros k. apply run_tasks_get_other.
Qed.

Lemma recording_task_or_none (io : nat -> env) (tasks : list dataset) k
    (order : list nat) :
  (exists j d path,
     In j order /\ tasks !! j = Some d /\ identifier d = k /\
     task_result (io j) d = Ok (Some path)) \/
  (forall j d path, In j order -> tasks !! j = Some d -> identifier d = k ->
     task_result (io j) d <> Ok (Some path)).
Proof.
  induction order as [|i order [IH | IH]].
  - right. intros j d path [].
  - left. destruct IH as (j & d & path & Hj & H). exists j, d, path.
    simpl. tauto.
  - destruct (tasks !! i) as [d|] eqn:Ei.
    + destruct (decide (identifier d = k)) as [Hk | Hk].
      * destruct (task_result (io i) d) as [[path|]|e] eqn:Hres.
        -- left. exists i, d, path. simpl. auto.
        -- right. intros j d' path [<- | Hj] Hd' Hid; [congruence | eauto].
        -- right. intros j d' path [<- | Hj] Hd' Hid; [congruence | eauto].
      * right. intros j d' path [<- | Hj] Hd' Hid; [congruence | eauto].
    + right. intros j d' path [<- | Hj] Hd' Hid; [congruence | eauto].
Qed.

(** X16: when the tasks have different identifiers, what the dictionary
    holds after the pool does not depend on the order in which the tasks
    complete. *)
Theorem run_tasks_order_independent io tasks order1 order2 metadata w k :
  NoDup (map identifier tasks) ->
  Permutation order1 order2 ->
  dict_get k (fst (fst (run_tasks io tasks order1 metadata w))) =
  dict_get k (fst (fst (run_tasks io tasks order2 metadata w))).
Proof.
  intros Hnd Hperm.
  destruct (recording_task_or_none io tasks k order1)
    as [(j & d & path & Hj & Hd & <- & Hres) | Hnone].
  - rewrite (run_tasks_get_recorded io tasks order1 metadata w j d path)
      by assumption.
    rewrite (run_tasks_get_recorded io tasks order2 metadata w j d path);
      try assumption; [reflexivity|].
    eapply Permutation_in; eassumption.
  - rewrite !run_tasks_get_unchanged; [reflexivity | | exact Hnone].
    intros j d path Hj. apply Hnone.
    eapply Permutation_in; [symmetry; exact Hperm | exact Hj].
Qed.

(** ** Runs *)

Lemma process_dataset_skipped io d metadata w :
  task_result io d = Ok None ->
  process_dataset io d metadata w = (metadata, w, Ok None).
Proof.
  unfold task_result, process_dataset. cbv zeta.
  destruct (default _ (distribution d)) as [|first others]; [discriminate|].
  destruct (downloadURL first) as [[|c url]|]; [reflexivity | | reflexivity].
  destruct (read_csv io (c :: url)) as [df|e]; [|discriminate].
  destruct (makedirs io); [discriminate|].
  destruct (to_csv io _ _) as [|e partial]; [|destruct partial]; discriminate.
Qed.

Lemma run_tasks_all_skipped io tasks order metadata w :
  (forall i d, In i order -> tasks !! i = Some d ->
     task_result (io i) d = Ok None) ->
  exists results,
    run_tasks io tasks order metadata w = (metadata, w, results) /\
    collect results w = (w, Ok tt).
Proof.
  induction order as [|i order IH]; intros Hskip.
  - exists []. split; reflexivity.
  - destruct IH as (results & Hrun & Hcollect);
      [intros j d Hj; apply Hskip; simpl; auto|].
    simpl. destruct (tasks !! i) as [d|] eqn:Ei.
    + rewrite (process_dataset_skipped (io i) d metadata w)
        by (apply Hskip; simpl; auto).
      rewrite Hrun. exists (Ok None :: results). split; [reflexivity|].
      exact Hcollect.
    + exists results. split; assumption.
Qed.

(** X17: when datasets are selected and every one of them is skipped for
    lack of a download locator, the run does not take the way of the empty
    selection: it writes the metadata file, with the state it has loaded,
    and prints that the ingestion is complete; it writes no output file. *)
Theorem main_all_skipped datasets io order w sel :
  select datasets (load_metadata w) = Ok sel ->
  sel <> [] ->
  (forall i d, In i order -> sel !! i = Some d ->
     task_result (io i) d = Ok None) ->
  main (Ok datasets) io order w =
    (print (py "Ingestion complete.") (save_metadata (load_metadata w) w), Ok tt).
Proof.
  intros Hsel Hne Hskip. rewrite (main_run _ _ _ _ _ Hsel Hne).
  destruct (run_tasks_all_skipped io sel order (load_metadata w) w Hskip)
    as (results & -> & ->).
  reflexivity.
Qed.

(** X18: a run that ends with an exception, be it of the catalog request, of
    the selection or of a task, leaves the metadata file as it was. *)
Theorem main_raise_keeps_metadata_file catalog io order w e :
  snd (main catalog io order w) = Raise e ->
  metadata_file (fst (main catalog io order w)) = metadata_file w.
Proof.
  unfold main. destruct catalog as [datasets|e0]; [|reflexivity].
  destruct (select datasets (load_metadata w)) as [[|d sel]|e0];
    [reflexivity | | reflexivity].
  pose proof (run_tasks_effects io (d :: sel) order (load_metadata w) w) as Hrun.
  destruct (run_tasks io (d :: sel) order (load_metadata w) w)
    as [[metadata1 w1] results].
  destruct Hrun as (_ & Hfile & _).
  destruct (collect_frame results w1) as [_ Hmeta].
  destruct (collect results w1) as [w2 [[]|e0]]; simpl in *; [discriminate|].
  intros _. congruence.
Qed.





(** X20: after a run in which no task raises, on datasets with different
    identifier strings, the state that the next run loads holds the modified
    timestamp of every dataset whose task returned a path, and for a skipped
    dataset what the state held before the run. *)
Theorem main_records datasets io order w sel i d :
  select datasets (load_metadata w) = Ok sel ->
  NoDup (map identifier sel) ->
  (forall j d', sel !! j = Some d' -> is_Some (identifier d')) ->
  (forall j d', In j order -> sel !! j = Some d' ->
     is_raise (task_result (io j) d') = false) ->
  In i order ->
  sel !! i = Some d ->
  dict_get (identifier d)
    (load_metadata (fst (main (Ok datasets) io order w))) =
  match task_result (io i) d with
  | Ok (Some _) => Some (modified d)
  | _ => dict_get (identifier d) (load_metadata w)
  end.
Proof.
  intros Hsel Hnd Hids Hok Hi Hd.
  assert (sel <> []) as Hne by (intros ->; discriminate).
  rewrite (main_run _ _ _ _ _ Hsel Hne).
  pose proof (run_tasks_effects io sel order (load_metadata w) w) as Hrun.
  pose proof (run_tasks_entry io sel order (load_metadata w) w i d Hnd Hi Hd)
    as Hentry.
  pose proof (run_tasks_string_keys io sel order (load_metadata w) w
                (load_metadata_string_keys w)) as Hkeys.
  destruct (run_tasks io sel order (load_metadata w) w) as [[metadata1 w1] results].
  simpl in Hentry, Hkeys. destruct Hrun as (Hres & _).
  pose proof (collect_ok results w1) as Hc.
  destruct (collect results w1) as [w2 r]. simpl in Hc. rewrite Hc.
  2:{ intros e Hin. apply Hres in Hin as (j & d' & Hj & Hd' & He).
      specialize (Hok j d' Hj Hd'). rewrite <- He in Hok. discriminate. }
  simpl.
  change (load_metadata (print (py "Ingestion complete.")
                           (save_metadata metadata1 w2)))
    with (json_load (json_dump metadata1)).
  rewrite json_load_dump by (apply Hkeys; intros j d' _ Hj; apply (Hids j d' Hj)).
  exact Hentry.
Qed.

(** ** The catalog request *)

(** X21: [fetch_datasets] raises when the request raises, when the status is
    a client or server error ([HTTPError]), and when [response.json()]
    raises; for a response whose body, if JSON, is an object, it raises in
    no other case. The run then ends with that exception and has done
    nothing: no output, no file, the metadata file as it was. *)
Theorem fetch_datasets_raises get e :
  (fetch_datasets get = Raise e <->
   get = Raise e \/
   exists r, get = Ok r /\
     ((400 <= status_code r < 600 /\ e = HTTPError) \/
      (~ 400 <= status_code r < 600 /\ json r = Raise e))) /\
  (fetch_datasets get = Raise e ->
   forall io order w, main (fetch_datasets get) io order w = (w, Raise e)).
Proof.
  split; [|intros H io order w; rewrite H; reflexivity].
  unfold fetch_datasets, raise_for_status.
  destruct get as [r|e0]; simpl.
  - destruct ((400 <=? status_code r) && (status_code r <? 600)) eqn:Es; simpl.
    + apply andb_prop in Es as [E1 E2].
      apply N.leb_le in E1. apply N.ltb_lt in E2. split.
      * intros [= <-]. right. exists r. split; [reflexivity|]. left. auto.
      * intros [[=] | (r' & [= <-] & [[_ ->] | [Hn _]])]; [reflexivity|].
        destruct Hn. auto.
    + assert (~ 400 <= status_code r < 600) as Hn.
      { intros [H1 H2]. apply N.leb_le in H1. apply N.ltb_lt in H2.
        rewrite H1, H2 in Es. discriminate. }
      destruct (json r) as [body|e0] eqn:Ej; simpl; split.
      * discriminate.
      * intros [[=] | (r' & [= <-] & [[H _] | [_ H]])];
          [contradiction | congruence].
      * intros [= <-]. right. exists r. split; [reflexivity|]. right. auto.
      * intros [[=] | (r' & [= <-] & [[H _] | [_ H]])];
          [contradiction | congruence].
  - split.
    + intros [= <-]. left. reflexivity.
    + intros [[= <-] | (r & [=] & _)]. reflexivity.
Qed.

(** X22: a catalog response without [items] member, or with an empty one, is
    an empty catalog: whatever the state, the run prints that there is
    nothing to do and ends normally, the world otherwise unchanged. *)
Theorem main_without_items r io order w :
  ~ 400 <= status_code r < 600 ->
  json r = Ok None \/ json r = Ok (Some []) ->
  main (fetch_datasets (Ok r)) io order w =
    (print (py "No new or updated hospital datasets found.") w, Ok tt).
Proof.
  intros Hn Hj. unfold fetch_datasets, raise_for_status. simpl.
  destruct ((400 <=? status_code r) && (status_code r <? 600)) eqn:Es.
  - apply andb_prop in Es as [E1 E2].
    apply N.leb_le in E1. apply N.ltb_lt in E2. destruct Hn. auto.
  - destruct Hj as [-> | ->]; reflexivity.
Qed.

(** ** Themes and timestamps *)

(** X23: the theme is matched without regard to the case of ASCII letters
    and anywhere in the text: an ASCII theme that contains the word in any
    letter case makes a hospital dataset. *)
Theorem is_hospital_dataset_case d before word after :
  theme d = Some (before ++ word ++ after) ->
  forallb is_ascii (before ++ word ++ after) = true ->
  map ascii_lower word = py "hospital" ->
  is_hospital_dataset d = true.
Proof.
  unfold is_hospital_dataset. intros -> Ha Hw. simpl. unfold lower. rewrite Ha.
  apply contains_spec. rewrite !map_app, Hw. eauto.
Qed.

Lemma str_gt_extension b c rest : str_gt (b ++ c :: rest) b = true.
Proof. apply str_gt_spec. right. eauto. Qed.

Lemma str_gt_prefix a c rest : str_gt a (a ++ c :: rest) = false.
Proof.
  induction a as [|x a IH]; [reflexivity|]. simpl. rewrite N.eqb_refl. exact IH.
Qed.

(** X24: the timestamps are compared as strings: when one of the recorded
    and the modified timestamp is a proper prefix of the other (a date that
    gets or loses its time of day), the dataset is due exactly when the
    modified timestamp is the longer one. *)
Theorem needs_update_prefix d metadata recorded changed c rest :
  dict_get (identifier d) metadata = Some (Some recorded) ->
  modified d = Some changed ->
  changed = recorded ++ c :: rest \/ recorded = changed ++ c :: rest ->
  needs_update d metadata = Ok (length recorded <? length changed)%nat.
Proof.
  intros Hg Hm H. unfold needs_update, dict_mem. rewrite Hg, Hm. simpl. f_equal.
  destruct H as [-> | ->].
  - rewrite str_gt_extension. symmetry. apply Nat.ltb_lt.
    rewrite length_app. simpl. lia.
  - rewrite str_gt_prefix. symmetry. apply Nat.ltb_ge.
    rewrite length_app. simpl. lia.
Qed.

End Program.

(** * The statements at the sample data *)

Lemma select_exact_witness :
  (forall d, In d decision_catalog ->
     is_hospital_dataset no_unicode d = true ->
     timestamps_present recorded_state d) /\
  select no_unicode decision_catalog recorded_state
    = Ok (List.filter (qualifies no_unicode recorded_state) decision_catalog) /\
  (forall d,
     qualifies no_unicode recorded_state d = true <->
     theme_matches no_unicode d /\ update_due recorded_state d) /\
  (forall d ts,
     modified d = Some ts ->
     dict_get (identifier d) recorded_state = Some (Some ts) ->
     ~ In d (List.filter (qualifies no_unicode recorded_state) decision_catalog)).
Proof.
  assert (forall d, In d decision_catalog ->
     is_hospital_dataset no_unicode d = true ->
     timestamps_present recorded_state d) as H.
  { intros d Hd _ stored Hs.
    assert (is_Some (modified d)) as Hm.
    { destruct Hd as [<- | [<- | [<- | [<- | []]]]]; simpl; eauto. }
    split; [exact Hm|].
    unfold recorded_state in Hs. simpl in Hs.
    destruct (decide _) in Hs; [|discriminate].
    injection Hs as <-. eauto. }
  split; [exact H|].
  apply (select_exact no_unicode decision_catalog recorded_state H).
Defined.

(** What the selection of the sample is: [D1] at its recorded timestamp and
    the dataset of another theme are left out. *)
Lemma select_decision_catalog :
  select no_unicode decision_catalog recorded_state =
  Ok [ descriptor "D1" "Hospital Compare" "2024-02-01" (at_url "https://data.cms.gov/d1.csv");
       dataset_d2 ].
Proof. vm_compute. reflexivity. Qed.

(** A hospital dataset whose identifier is recorded and which has no modified
    timestamp: the selection does not return the filtered catalog, it raises
    [TypeError]. *)
Lemma select_raises_without_modified :
  select no_unicode [dataset_d2; dataset_without_modified] recorded_state
    = Raise TypeError /\
  List.filter (qualifies no_unicode recorded_state)
    [dataset_d2; dataset_without_modified] = [dataset_d2] /\
  select no_unicode [dataset_d2; dataset_without_modified] recorded_state
    <> Ok (List.filter (qualifies no_unicode recorded_state)
             [dataset_d2; dataset_without_modified]).
Proof.
  assert (select no_unicode [dataset_d2; dataset_without_modified] recorded_state
          = Raise TypeError) as H by (vm_compute; reflexivity).
  split; [exact H|]. split; [vm_compute; reflexivity|].
  rewrite H. discriminate.
Qed.

(** Three datasets are selected and the download of the second fails: the run
    ends with the exception and writes no metadata file, though the other two
    output files are there. *)
Lemma failed_task_unwinds_run :
  select no_unicode three_hospitals (load_metadata empty_world) = Ok three_hospitals /\
  task_result no_unicode (second_fails 1) dataset_d2 = Raise HTTPError /\
  snd (main no_unicode (Ok three_hospitals) second_fails [0; 1; 2]%nat empty_world)
    = Raise HTTPError /\
  metadata_file
    (fst (main no_unicode (Ok three_hospitals) second_fails [0; 1; 2]%nat empty_world))
    = None /\
  is_Some (files
    (fst (main no_unicode (Ok three_hospitals) second_fails [0; 1; 2]%nat empty_world))
    !! py "output/D1.csv") /\
  is_Some (files
    (fst (main no_unicode (Ok three_hospitals) second_fails [0; 1; 2]%nat empty_world))
    !! py "output/D3.csv").
Proof.
  repeat split; try (vm_compute; reflexivity); vm_compute; eauto.
Qed.

Lemma main_task_failure_unwinds_witness :
  select no_unicode three_hospitals (load_metadata empty_world) = Ok three_hospitals /\
  In 1%nat [0; 1; 2]%nat /\
  three_hospitals !! 1%nat = Some dataset_d2 /\
  task_result no_unicode (second_fails 1) dataset_d2 = Raise HTTPError /\
  exists e' w',
    main no_unicode (Ok three_hospitals) second_fails [0; 1; 2]%nat empty_world
      = (w', Raise e') /\
    (exists j d',
       In j [0; 1; 2]%nat /\ three_hospitals !! j = Some d' /\
       task_result no_unicode (second_fails j) d' = Raise e') /\
    metadata_file w' = metadata_file empty_world /\
    (forall j d' path,
       In j [0; 1; 2]%nat -> three_hospitals !! j = Some d' ->
       task_result no_unicode (second_fails j) d' = Ok (Some path) ->
       is_Some (files w' !! path)).
Proof.
  assert (select no_unicode three_hospitals (load_metadata empty_world)
          = Ok three_hospitals) as H1 by (vm_compute; reflexivity).
  assert (In 1%nat [0; 1; 2]%nat) as H2 by (simpl; auto).
  assert (three_hospitals !! 1%nat = Some dataset_d2) as H3 by reflexivity.
  assert (task_result no_unicode (second_fails 1) dataset_d2 = Raise HTTPError)
    as H4 by reflexivity.
  repeat (split; [assumption|]).
  exact (main_task_failure_unwinds no_unicode three_hospitals second_fails
           [0; 1; 2]%nat empty_world three_hospitals 1%nat dataset_d2 HTTPError
           H1 H2 H3 H4).
Defined.

(** [process_dataset] called with the empty dictionary leaves an entry in
    it. *)
Lemma process_dataset_mutates_shared_state :
  fst (fst (process_dataset no_unicode online dataset_d1 [] empty_world))
    = [(Some (py "D1"), Some (py "2024-01-01"))] /\
  fst (fst (process_dataset no_unicode online dataset_d1 [] empty_world)) <> [].
Proof. split; [vm_compute; reflexivity | vm_compute; discriminate]. Qed.

Lemma process_dataset_assigns_state_witness :
  select no_unicode three_hospitals (load_metadata empty_world) = Ok three_hospitals /\
  three_hospitals <> [] /\
  (forall i d, In i [1; 0; 2]%nat -> three_hospitals !! i = Some d ->
     is_raise (task_result no_unicode (all_online i) d) = false) /\
  snd (main no_unicode (Ok three_hospitals) all_online [1; 0; 2]%nat empty_world)
    = Ok tt /\
  metadata_file
    (fst (main no_unicode (Ok three_hospitals) all_online [1; 0; 2]%nat empty_world))
  = Some (json_dump
      (fst (fst (run_tasks no_unicode all_online three_hospitals [1; 0; 2]%nat
                   (load_metadata empty_world) empty_world)))).
Proof.
  assert (select no_unicode three_hospitals (load_metadata empty_world)
          = Ok three_hospitals) as H1 by (vm_compute; reflexivity).
  assert (three_hospitals <> []) as H2 by discriminate.
  assert (forall i d, In i [1; 0; 2]%nat -> three_hospitals !! i = Some d ->
     is_raise (task_result no_unicode (all_online i) d) = false) as H3.
  { intros i d [<- | [<- | [<- | []]]] [= <-]; reflexivity. }
  repeat (split; [assumption|]).
  exact (proj2 (process_dataset_assigns_state no_unicode)
           three_hospitals all_online [1; 0; 2]%nat empty_world three_hospitals
           H1 H2 H3).
Defined.

(** A hospital dataset without download locator is selected, skipped, and
    selected again by the next run on the same catalog. *)
Lemma skipped_dataset_selected_again :
  snd (main no_unicode (Ok [dataset_without_download]) all_online [0%nat] empty_world)
    = Ok tt /\
  select no_unicode [dataset_without_download]
    (load_metadata
       (fst (main no_unicode (Ok [dataset_without_download]) all_online [0%nat]
               empty_world)))
    = Ok [dataset_without_download].
Proof. split; vm_compute; reflexivity. Qed.

Lemma second_run_selects_nothing_witness :
  select no_unicode three_hospitals (load_metadata empty_world) = Ok three_hospitals /\
  Permutation [1; 0; 2]%nat (seq 0 (length three_hospitals)) /\
  NoDup (map identifier three_hospitals) /\
  (forall i d, three_hospitals !! i = Some d ->
     is_Some (identifier d) /\ is_Some (modified d) /\
     exists path, task_result no_unicode (all_online i) d = Ok (Some path)) /\
  snd (main no_unicode (Ok three_hospitals) all_online [1; 0; 2]%nat empty_world)
    = Ok tt /\
  select no_unicode three_hospitals
    (load_metadata
       (fst (main no_unicode (Ok three_hospitals) all_online [1; 0; 2]%nat
               empty_world)))
    = Ok [] /\
  (forall io2 order2,
     snd (main no_unicode (Ok three_hospitals) io2 order2
            (fst (main no_unicode (Ok three_hospitals) all_online [1; 0; 2]%nat
                    empty_world)))
     = Ok tt /\
     files (fst (main no_unicode (Ok three_hospitals) io2 order2
                   (fst (main no_unicode (Ok three_hospitals) all_online
                           [1; 0; 2]%nat empty_world))))
     = files (fst (main no_unicode (Ok three_hospitals) all_online [1; 0; 2]%nat
                     empty_world))).
Proof.
  assert (select no_unicode three_hospitals (load_metadata empty_world)
          = Ok three_hospitals) as H1 by (vm_compute; reflexivity).
  assert (Permutation [1; 0; 2]%nat (seq 0 (length three_hospitals))) as H2
    by apply perm_swap.
  assert (NoDup (map identifier three_hospitals)) as H3.
  { repeat (apply NoDup_cons_2; [intros H; repeat (apply elem_of_cons in H as [H | H];
      [discriminate|]); inversion H|]). apply NoDup_nil_2. }
  assert (forall i d, three_hospitals !! i = Some d ->
     is_Some (identifier d) /\ is_Some (modified d) /\
     exists path, task_result no_unicode (all_online i) d = Ok (Some path)) as H4.
  { intros [|[|[|i]]] d [= <-]; (split; [eauto|]); (split; [eauto|]);
      eexists; reflexivity. }
  repeat (split; [assumption|]).
  exact (second_run_selects_nothing no_unicode three_hospitals all_online
           [1; 0; 2]%nat empty_world three_hospitals H1 H2 H3 H4).
Defined.

Lemma main_nothing_to_do_witness :
  select no_unicode [dataset_d1] (load_metadata recorded_world) = Ok [] /\
  main no_unicode (Ok [dataset_d1]) all_online [] recorded_world =
    (print (py "No new or updated hospital datasets found.") recorded_world, Ok tt) /\
  metadata_file (fst (main no_unicode (Ok [dataset_d1]) all_online [] recorded_world))
    = metadata_file recorded_world /\
  files (fst (main no_unicode (Ok [dataset_d1]) all_online [] recorded_world))
    = files recorded_world.
Proof.
  assert (select no_unicode [dataset_d1] (load_metadata recorded_world) = Ok [])
    as H by (vm_compute; reflexivity).
  split; [exact H|].
  exact (main_nothing_to_do no_unicode [dataset_d1] all_online [] recorded_world H).
Defined.

Lemma needs_update_raises_without_modified_witness :
  is_hospital_dataset no_unicode dataset_without_modified = true /\
  dict_mem (identifier dataset_without_modified) (load_metadata recorded_world)
    = true /\
  modified dataset_without_modified = None /\
  needs_update dataset_without_modified (load_metadata recorded_world)
    = Raise TypeError /\
  main no_unicode (Ok [dataset_without_modified]) all_online [] recorded_world
    = (recorded_world, Raise TypeError).
Proof.
  assert (is_hospital_dataset no_unicode dataset_without_modified = true) as H1
    by (vm_compute; reflexivity).
  assert (dict_mem (identifier dataset_without_modified)
            (load_metadata recorded_world) = true) as H2
    by (vm_compute; reflexivity).
  assert (modified dataset_without_modified = None) as H3 by reflexivity.
  repeat (split; [assumption|]).
  split.
  - exact (proj1 (needs_update_raises_without_modified no_unicode)
             dataset_without_modified (load_metadata recorded_world) H2 H3).
  - exact (proj2 (needs_update_raises_without_modified no_unicode)
             dataset_without_modified [] all_online [] recorded_world H1 H2 H3).
Defined.

(** The descriptor with an empty distribution list. *)
Lemma empty_distribution_raises :
  process_dataset no_unicode online
    (descriptor "D1" "Hospitals" "2024-01-01" (Some [])) recorded_state empty_world
  = (recorded_state, empty_world, Raise IndexError).
Proof. reflexivity. Qed.

(** The example of the docstring of [to_snake_case]. Its input has the curly
    apostrophe, so the lowercased input is given. *)
Lemma to_snake_case_docstring unicode_lower :
  unicode_lower
    (py "Patients" ++ [8217] ++ py " rating of the facility linear mean score")
  = py "patients" ++ [8217] ++ py " rating of the facility linear mean score" ->
  to_snake_case unicode_lower
    (py "Patients" ++ [8217] ++ py " rating of the facility linear mean score")
  = py "patients_rating_of_the_facility_linear_mean_score".
Proof.
  intros H. unfold to_snake_case, lower.
  replace (forallb is_ascii _) with false by reflexivity.
  rewrite H. reflexivity.
Qed.

(** * The further properties at the sample data *)

Lemma to_snake_case_apostrophe_witness :
  forallb is_ascii (py "Patient") = true /\
  forallb is_ascii (py "s rating") = true /\
  to_snake_case no_unicode (py "Patient" ++ 39 :: py "s rating")
  = to_snake_case no_unicode (py "Patient" ++ py "s rating").
Proof.
  assert (forallb is_ascii (py "Patient") = true) as H1 by reflexivity.
  assert (forallb is_ascii (py "s rating") = true) as H2 by reflexivity.
  repeat (split; [assumption|]).
  exact (to_snake_case_apostrophe no_unicode (py "Patient") (py "s rating") H1 H2).
Defined.

Lemma needs_update_after_process_witness :
  task_result no_unicode online dataset_d1 = Ok (Some (py "output/D1.csv")) /\
  needs_update dataset_d1
    (fst (fst (process_dataset no_unicode online dataset_d1 [] empty_world)))
  = match modified dataset_d1 with
    | Some _ => Ok false
    | None => Raise TypeError
    end.
Proof.
  assert (task_result no_unicode online dataset_d1 = Ok (Some (py "output/D1.csv")))
    as H by reflexivity.
  split; [exact H|].
  exact (needs_update_after_process no_unicode online dataset_d1 [] empty_world
           (py "output/D1.csv") H).
Defined.



Lemma needs_update_without_identifier_witness :
  identifier dataset_without_identifier = None /\
  needs_update dataset_without_identifier (load_metadata recorded_world) = Ok true /\
  (forall metadata,
     needs_update dataset_without_identifier
       (load_metadata (save_metadata metadata recorded_world)) = Ok true).
Proof.
  assert (identifier dataset_without_identifier = None) as H by reflexivity.
  split; [exact H|].
  exact (needs_update_without_identifier dataset_without_identifier
           recorded_world H).
Defined.

Lemma load_save_metadata_witness :
  NoDup (map (fun kv => json_key (fst kv)) state_with_none) /\
  load_metadata (save_metadata state_with_none empty_world)
    = map (fun kv => (Some (json_key (fst kv)), snd kv)) state_with_none /\
  (Forall (fun kv => is_Some (fst kv)) state_with_none ->
   load_metadata (save_metadata state_with_none empty_world) = state_with_none).
Proof.
  assert (NoDup (map (fun kv => json_key (fst kv)) state_with_none)) as H.
  { repeat (apply NoDup_cons_2;
      [intros H; repeat (apply elem_of_cons in H as [H | H]; [discriminate|]);
       inversion H|]).
    apply NoDup_nil_2. }
  split; [exact H|].
  exact (load_save_metadata state_with_none empty_world H).
Defined.

(** The entry recorded under [None] comes back under the string [null]. *)
Lemma load_save_state_with_none :
  load_metadata (save_metadata state_with_none empty_world)
  = [(Some (py "null"), Some (py "2024-01-01"));
     (Some (py "D1"), Some (py "2024-01-01"))].
Proof. reflexivity. Qed.

Lemma save_load_metadata_witness :
  metadata_file recorded_world = Some [(py "D1", Some (py "2024-01-01"))] /\
  NoDup (map fst [(py "D1", Some (py "2024-01-01"))]) /\
  metadata_file (save_metadata (load_metadata recorded_world) recorded_world)
  = Some [(py "D1", Some (py "2024-01-01"))].
Proof.
  assert (metadata_file recorded_world = Some [(py "D1", Some (py "2024-01-01"))])
    as H1 by reflexivity.
  assert (NoDup (map fst [(py "D1", Some (py "2024-01-01"))])) as H2
    by apply NoDup_singleton.
  repeat (split; [assumption|]).
  exact (save_load_metadata recorded_world _ H1 H2).
Defined.

Lemma three_hospitals_identifiers : NoDup (map identifier three_hospitals).
Proof.
  repeat (apply NoDup_cons_2;
    [intros H; repeat (apply elem_of_cons in H as [H | H]; [discriminate|]);
     inversion H|]).
  apply NoDup_nil_2.
Defined.

Lemma run_tasks_records_witness :
  NoDup (map identifier three_hospitals) /\
  (forall i d,
     In i [2; 0; 1]%nat -> three_hospitals !! i = Some d ->
     dict_get (identifier d)
       (fst (fst (run_tasks no_unicode second_fails three_hospitals [2; 0; 1]%nat
                    recorded_state empty_world))) =
     match task_result no_unicode (second_fails i) d with
     | Ok (Some _) => Some (modified d)
     | _ => dict_get (identifier d) recorded_state
     end) /\
  (forall k,
     (forall j d, In j [2; 0; 1]%nat -> three_hospitals !! j = Some d ->
        identifier d <> k) ->
     dict_get k
       (fst (fst (run_tasks no_unicode second_fails three_hospitals [2; 0; 1]%nat
                    recorded_state empty_world)))
     = dict_get k recorded_state).
Proof.
  split; [exact three_hospitals_identifiers|].
  exact (run_tasks_records no_unicode second_fails three_hospitals [2; 0; 1]%nat
           recorded_state empty_world three_hospitals_identifiers).
Defined.

Lemma run_tasks_order_independent_witness :
  NoDup (map identifier three_hospitals) /\
  Permutation [1; 0; 2]%nat [0; 1; 2]%nat /\
  dict_get (Some (py "D3"))
    (fst (fst (run_tasks no_unicode second_fails three_hospitals [1; 0; 2]%nat
                 recorded_state empty_world))) =
  dict_get (Some (py "D3"))
    (fst (fst (run_tasks no_unicode second_fails three_hospitals [0; 1; 2]%nat
                 recorded_state empty_world))).
Proof.
  assert (Permutation [1; 0; 2]%nat [0; 1; 2]%nat) as H by apply perm_swap.
  split; [exact three_hospitals_identifiers|]. split; [exact H|].
  exact (run_tasks_order_independent no_unicode second_fails three_hospitals
           [1; 0; 2]%nat [0; 1; 2]%nat recorded_state empty_world
           (Some (py "D3")) three_hospitals_identifiers H).
Defined.

Lemma main_all_skipped_witness :
  select no_unicode [dataset_without_download] (load_metadata recorded_world)
    = Ok [dataset_without_download] /\
  [dataset_without_download] <> [] /\
  (forall i d, In i [0%nat] -> [dataset_without_download] !! i = Some d ->
     task_result no_unicode (all_online i) d = Ok None) /\
  main no_unicode (Ok [dataset_without_download]) all_online [0%nat] recorded_world =
    (print (py "Ingestion complete.")
       (save_metadata (load_metadata recorded_world) recorded_world), Ok tt).
Proof.
  assert (select no_unicode [dataset_without_download] (load_metadata recorded_world)
          = Ok [dataset_without_download]) as H1 by (vm_compute; reflexivity).
  assert ([dataset_without_download] <> []) as H2 by discriminate.
  assert (forall i d, In i [0%nat] -> [dataset_without_download] !! i = Some d ->
     task_result no_unicode (all_online i) d = Ok None) as H3.
  { intros i d [<- | []] [= <-]. reflexivity. }
  repeat (split; [assumption|]).
  exact (main_all_skipped no_unicode [dataset_without_download] all_online [0%nat]
           recorded_world [dataset_without_download] H1 H2 H3).
Defined.

Lemma main_raise_keeps_metadata_file_witness :
  snd (main no_unicode (Ok three_hospitals) second_fails [0; 1; 2]%nat recorded_world)
    = Raise HTTPError /\
  metadata_file
    (fst (main no_unicode (Ok three_hospitals) second_fails [0; 1; 2]%nat
            recorded_world))
  = metadata_file recorded_world.
Proof.
  assert (snd (main no_unicode (Ok three_hospitals) second_fails [0; 1; 2]%nat
                 recorded_world) = Raise HTTPError) as H by (vm_compute; reflexivity).
  split; [exact H|].
  exact (main_raise_keeps_metadata_file no_unicode (Ok three_hospitals) second_fails
           [0; 1; 2]%nat recorded_world HTTPError H).
Defined.

Lemma fetch_datasets_raises_witness :
  fetch_datasets (Ok response_unavailable) = Raise HTTPError /\
  forall io order w,
    main no_unicode (fetch_datasets (Ok response_unavailable)) io order w
    = (w, Raise HTTPError).
Proof.
  assert (fetch_datasets (Ok response_unavailable) = Raise HTTPError) as H
    by reflexivity.
  split; [exact H|].
  exact (proj2 (fetch_datasets_raises no_unicode (Ok response_unavailable) HTTPError) H).
Defined.

Lemma main_without_items_witness :
  ~ 400 <= status_code response_without_items < 600 /\
  (json response_without_items = Ok None \/
   json response_without_items = Ok (Some [])) /\
  main no_unicode (fetch_datasets (Ok response_without_items)) all_online []
    recorded_world
  = (print (py "No new or updated hospital datasets found.") recorded_world, Ok tt).
Proof.
  assert (~ 400 <= status_code response_without_items < 600) as H1.
  { intros [H _]. apply N.leb_le in H. discriminate. }
  assert (json response_without_items = Ok None \/
          json response_without_items = Ok (Some [])) as H2 by (left; reflexivity).
  repeat (split; [assumption|]).
  exact (main_without_items no_unicode response_without_items all_online []
           recorded_world H1 H2).
Defined.

Lemma main_records_witness :
  select no_unicode mixed_hospitals (load_metadata empty_world) = Ok mixed_hospitals /\
  NoDup (map identifier mixed_hospitals) /\
  (forall j d', mixed_hospitals !! j = Some d' -> is_Some (identifier d')) /\
  (forall j d', In j [1; 0]%nat -> mixed_hospitals !! j = Some d' ->
     is_raise (task_result no_unicode (all_online j) d') = false) /\
  In 0%nat [1; 0]%nat /\
  mixed_hospitals !! 0%nat = Some dataset_d1 /\
  dict_get (identifier dataset_d1)
    (load_metadata
       (fst (main no_unicode (Ok mixed_hospitals) all_online [1; 0]%nat empty_world)))
  = match task_result no_unicode (all_online 0) dataset_d1 with
    | Ok (Some _) => Some (modified dataset_d1)
    | _ => dict_get (identifier dataset_d1) (load_metadata empty_world)
    end.
Proof.
  assert (select no_unicode mixed_hospitals (load_metadata empty_world)
          = Ok mixed_hospitals) as H1 by (vm_compute; reflexivity).
  assert (NoDup (map identifier mixed_hospitals)) as H2.
  { repeat (apply NoDup_cons_2;
      [intros H; repeat (apply elem_of_cons in H as [H | H]; [discriminate|]);
       inversion H|]).
    apply NoDup_nil_2. }
  assert (forall j d', mixed_hospitals !! j = Some d' -> is_Some (identifier d'))
    as H3 by (intros [|[|j]] d' [= <-]; simpl; eauto).
  assert (forall j d', In j [1; 0]%nat -> mixed_hospitals !! j = Some d' ->
     is_raise (task_result no_unicode (all_online j) d') = false) as H4
    by (intros j d' [<- | [<- | []]] [= <-]; reflexivity).
  assert (In 0%nat [1; 0]%nat) as H5 by (simpl; auto).
  assert (mixed_hospitals !! 0%nat = Some dataset_d1) as H6 by reflexivity.
  repeat (split; [assumption|]).
  exact (main_records no_unicode mixed_hospitals all_online [1; 0]%nat empty_world
           mixed_hospitals 0%nat dataset_d1 H1 H2 H3 H4 H5 H6).
Defined.

Lemma is_hospital_dataset_case_witness :
  theme dataset_d1 = Some ([] ++ py "Hospital" ++ py " Compare") /\
  forallb is_ascii ([] ++ py "Hospital" ++ py " Compare") = true /\
  map ascii_lower (py "Hospital") = py "hospital" /\
  is_hospital_dataset no_unicode dataset_d1 = true.
Proof.
  assert (theme dataset_d1 = Some ([] ++ py "Hospital" ++ py " Compare")) as H1
    by reflexivity.
  assert (forallb is_ascii ([] ++ py "Hospital" ++ py " Compare") = true) as H2
    by reflexivity.
  assert (map ascii_lower (py "Hospital") = py "hospital") as H3 by reflexivity.
  repeat (split; [assumption|]).
  exact (is_hospital_dataset_case no_unicode dataset_d1 [] (py "Hospital")
           (py " Compare") H1 H2 H3).
Defined.

Lemma needs_update_prefix_witness :
  dict_get (identifier dataset_d1_with_time) recorded_state
    = Some (Some (py "2024-01-01")) /\
  modified dataset_d1_with_time = Some (py "2024-01-01T00:00:00") /\
  (py "2024-01-01T00:00:00" = py "2024-01-01" ++ 84 :: py "00:00:00" \/
   py "2024-01-01" = py "2024-01-01T00:00:00" ++ 84 :: py "00:00:00") /\
  needs_update dataset_d1_with_time recorded_state
  = Ok (length (py "2024-01-01") <? length (py "2024-01-01T00:00:00"))%nat.
Proof.
  assert (dict_get (identifier dataset_d1_with_time) recorded_state
          = Some (Some (py "2024-01-01"))) as H1 by (vm_compute; reflexivity).
  assert (modified dataset_d1_with_time = Some (py "2024-01-01T00:00:00")) as H2
    by reflexivity.
  assert (py "2024-01-01T00:00:00" = py "2024-01-01" ++ 84 :: py "00:00:00" \/
          py "2024-01-01" = py "2024-01-01T00:00:00" ++ 84 :: py "00:00:00") as H3
    by (left; reflexivity).
  repeat (split; [assumption|]).
  exact (needs_update_prefix dataset_d1_with_time recorded_state (py "2024-01-01")
           (py "2024-01-01T00:00:00") 84 (py "00:00:00") H1 H2 H3).
Defined.
